(** * Ridelink MCP: routing service and route API, verified against their specification

    A shallow embedding of the class [RoutingService] (the second module of
    [src/services/orderService.ts], which the API imports as
    [@/services/routingService]) and of the tracking handler of
    [src/api/routes.ts].

    - JavaScript numbers are IEEE 754 binary64 values: Rocq's primitive
      [float], with its arithmetic and its comparisons ([<?] is false as soon
      as one side is NaN, as [<] is in JavaScript).
    - [Math.sin], [Math.cos] and [Math.atan2] are implementation-approximated
      in ECMAScript: they are parameters of the development (section
      variables).  [Math.sqrt] is the correctly rounded square root.
    - The Prisma record store, the clock, [Math.random] and the HTTP client are
      the outside world: a [World] value threaded through a state-and-exception
      monad.
    - Logging ([logger.info], [logger.error]) has no effect on results and is
      left out. *)

From Stdlib Require Import ZArith Floats Uint63 Lia Permutation.
From stdpp Require Import base option list strings gmap.

Set Warnings "-inexact-float".

Local Open Scope Z_scope.
Local Open Scope float_scope.

(** ** JavaScript numbers *)

Module Js.

Definition number := float.

Definition isNaN (x : number) : bool := negb (x =? x).

(** Truthiness of a number: [0], [-0] and [NaN] are falsy. *)
Definition truthy (x : number) : bool := negb (x =? 0) && negb (isNaN x).

(** An integer (an array index or a length) as a number. *)
Definition of_Z (z : Z) : number :=
  if (z <? 0)%Z then - PrimFloat.of_uint63 (Uint63.of_Z (- z))
  else PrimFloat.of_uint63 (Uint63.of_Z z).

Definition of_nat (n : nat) : number := of_Z (Z.of_nat n).

Definition PI : number := 3.141592653589793.

Definition two52 : number := 4503599627370496.

(** [Math.round], by the steps of ECMAScript: a value that is not finite or
    is integral is returned as it is; a value in (0, 0.5) gives +0, one in
    [-0.5, 0) gives -0; otherwise the nearest integer, the one closer to
    +Infinity on a tie.  Below 2^52 in magnitude, adding and subtracting 2^52
    rounds to the nearest integer, ties to even; a tie that went down is
    moved up. *)
Definition round (x : number) : number :=
  if isNaN x then x
  else if (two52 <=? abs x) || (x =? 0) then x
  else if (0 <? x) && (x <? 0.5) then 0
  else if (x <? 0) && (-0.5 <=? x) then -0
  else
    let r := if x <? 0 then (x - two52) + two52 else (x + two52) - two52 in
    if x - r =? 0.5 then r + 1 else r.

(** [Math.floor]: below 2^52 in magnitude, the nearest integer lowered by
    one when it lies above the argument. *)
Definition floor (x : number) : number :=
  if isNaN x then x
  else if (two52 <=? abs x) || (x =? 0) then x
  else
    let r := if x <? 0 then (x - two52) + two52 else (x + two52) - two52 in
    if x <? r then r - 1 else r.

(** [Math.min] of two arguments: NaN if either is NaN, and -0 below +0. *)
Definition min2 (x y : number) : number :=
  if isNaN x then x
  else if isNaN y then y
  else if y <? x then y
  else if x <? y then x
  else if (1 / y <? 0) then y else x.

(** [Math.min(...xs)]: +Infinity for no argument. *)
Definition min (xs : list number) : number := foldl min2 infinity xs.

(** [xs.indexOf(v)]: the first index whose element is strictly equal ([===])
    to [v], or -1.  NaN is equal to nothing. *)
Fixpoint indexOf_from (i : Z) (xs : list number) (v : number) : Z :=
  match xs with
  | [] => (-1)%Z
  | x :: xs' => if x =? v then i else indexOf_from (i + 1)%Z xs' v
  end.

Definition indexOf (xs : list number) (v : number) : Z := indexOf_from 0%Z xs v.

(** The names of the properties of [Object.prototype].  An object literal
    used as a table inherits them: for such a key, [table[key]] is that
    property (a function, or the prototype itself for [__proto__]) when the
    table has no entry of its own, and it is truthy. *)
Definition inherited (key : string) : bool :=
  bool_decide (key ∈ ["constructor"; "__defineGetter__"; "__defineSetter__";
                      "hasOwnProperty"; "__lookupGetter__"; "__lookupSetter__";
                      "isPrototypeOf"; "propertyIsEnumerable"; "toString";
                      "valueOf"; "__proto__"; "toLocaleString"]).

End Js.

(** ** Errors

    [createError(message, statusCode)] comes from [@/middleware/errorHandler]:
    an [Error] carrying a message and an HTTP status code, which is how every
    caller in the repository reads it ([error.message], [error.statusCode]).
    An error raised by the runtime or by a library (a [TypeError], a Prisma or
    axios failure) has no status code. *)

Record JsError := mkError { message : string; statusCode : option Z }.

Definition createError (msg : string) (code : Z) : JsError :=
  {| message := msg; statusCode := Some code |}.

Definition runtimeError (msg : string) : JsError :=
  {| message := msg; statusCode := None |}.

(** ** Data model (the interfaces of [RoutingService], [prisma/schema.prisma]) *)

Record RouteWaypoint := mkWaypoint {
  latitude : Js.number;
  longitude : Js.number;
  address : option string;
  estimatedArrival : option Z
}.

Definition point (lat lng : Js.number) : RouteWaypoint :=
  {| latitude := lat; longitude := lng; address := None; estimatedArrival := None |}.

Inductive TrafficModel := best_guess | pessimistic | optimistic.

Record RouteOptimizationRequest := mkRequest {
  origin : RouteWaypoint;
  destination : RouteWaypoint;
  waypoints : option (list RouteWaypoint);
  vehicleType : string;
  trafficModel : option TrafficModel;
  departureTime : option Z
}.

Record OptimizedRoute := mkOptimized {
  path : list RouteWaypoint;
  totalDistance : Js.number;
  estimatedDuration : Js.number;
  estimatedFuelCost : Js.number;
  estimatedTollCost : Js.number;
  trafficConditions : string;
  routeWaypoints : list RouteWaypoint
}.

Inductive Condition := light | moderate | heavy | severe.

Record TrafficCondition := mkTraffic {
  segment_start : RouteWaypoint;
  segment_end : RouteWaypoint;
  condition : Condition;
  delay : Js.number
}.

Inductive RouteStatus := PLANNED | IN_PROGRESS | COMPLETED | CANCELLED.

(** A row of the [routes] table.  [estimatedDuration] and [actualDuration] are
    [Int] columns of the schema: the store types what is written to them
    ([toInt] below). *)
Record Route := mkRoute {
  routeId : string;
  orderId : string;
  transporterId : string;
  optimizedPath : list RouteWaypoint;
  routeEstimatedDuration : Js.number;
  actualDuration : option Js.number;
  distance : Js.number;
  fuelCost : option Js.number;
  tollCost : option Js.number;
  status : RouteStatus;
  createdAt : Z;
  updatedAt : Z
}.

(** The [data] of [prisma.route.update]: the columns that the call names. *)
Record RouteData := mkRouteData {
  dataOptimizedPath : option (list RouteWaypoint);
  dataEstimatedDuration : option Js.number;
  dataActualDuration : option Js.number;
  dataDistance : option Js.number;
  dataFuelCost : option Js.number;
  dataTollCost : option Js.number;
  dataStatus : option RouteStatus;
  dataUpdatedAt : option Z
}.

(** The columns of a [transporters] row that the routing service reads. *)
Record Transporter := mkTransporter {
  transporterVehicleType : string;
  currentLocation : option (Js.number * Js.number)
}.

Record TrackingData := mkTracking {
  trackingTransporterId : string;
  trackingOrderId : option string;
  trackingLatitude : Js.number;
  trackingLongitude : Js.number;
  timestamp : Z
}.

(** ** Responses of the external directions services, as the code reads them *)

Record GoogleStep := mkStep { start_lat : Js.number; start_lng : Js.number }.

Record GoogleLeg := mkLeg {
  steps : list GoogleStep;
  distance_value : Js.number;
  duration_value : Js.number;
  duration_in_traffic : bool
}.

Record MapboxRoute := mkMapbox {
  coordinates : list (Js.number * Js.number);   (* GeoJSON: (longitude, latitude) *)
  mapboxDistance : Js.number;
  mapboxDuration : Js.number
}.

Inductive HttpResponse :=
  | NetworkFailure
  | GoogleDirections (routes : list (list GoogleLeg))
  | MapboxDirections (routes : list MapboxRoute).

(** ** The outside world and the monad of service calls *)

Record World := mkWorld {
  routes : gmap string Route;                 (* prisma.route *)
  transporters : gmap string Transporter;     (* prisma.transporter *)
  trackingData : list TrackingData;           (* prisma.trackingData *)
  clock : Z;                                  (* what [new Date()] reads *)
  random : list Js.number;                    (* the values [Math.random()] will return *)
  network : list HttpResponse                 (* the answers [axios.get] will receive *)
}.

Definition set_routes (f : gmap string Route → gmap string Route) (w : World) : World :=
  {| routes := f (routes w); transporters := transporters w;
     trackingData := trackingData w; clock := clock w; random := random w;
     network := network w |}.

(** An [async] method: it reads and writes the world, and either returns a
    value or throws. *)
Definition M (A : Type) : Type := World → (JsError + A) * World.

Definition ret {A} (a : A) : M A := λ w, (inr a, w).

Definition throw {A} (e : JsError) : M A := λ w, (inl e, w).

Definition bind {A B} (m : M A) (k : A → M B) : M B :=
  λ w, match m w with
       | (inl e, w') => (inl e, w')
       | (inr a, w') => k a w'
       end.

(** [try { body } catch (error) { handler }] *)
Definition try_catch {A} (body : M A) (handler : JsError → M A) : M A :=
  λ w, match body w with
       | (inl e, w') => handler e w'
       | (inr a, w') => (inr a, w')
       end.

(** A synchronous computation that may throw, run inside an [async] method. *)
Definition lift {A} (r : JsError + A) : M A := λ w, (r, w).

Declare Scope js_scope.
Delimit Scope js_scope with js.
Notation "'let*' x ':=' m 'in' k" := (bind m (λ x, k))
  (at level 10, x name, m at level 100, k at level 200) : js_scope.
Notation "m ';;' k" := (bind m (λ _, k))
  (at level 100, k at level 200, right associativity) : js_scope.

(** [new Date()] *)
Definition now : M Z := λ w, (inr (clock w), w).

(** [Math.random()]: the next value of the world's stream (0 once the stream
    has run out). *)
Definition Math_random : M Js.number :=
  λ w, match random w with
       | [] => (inr 0, w)
       | x :: xs =>
           (inr x, {| routes := routes w; transporters := transporters w;
                      trackingData := trackingData w; clock := clock w;
                      random := xs; network := network w |})
       end.

(** [axios.get(url, { params })]: the next answer of the network; a failed
    call rejects. *)
Definition axios_get : M HttpResponse :=
  λ w, match network w with
       | [] => (inl (runtimeError "Network Error"), w)
       | r :: rs =>
           let w' := {| routes := routes w; transporters := transporters w;
                        trackingData := trackingData w; clock := clock w;
                        random := random w; network := rs |} in
           match r with
           | NetworkFailure => (inl (runtimeError "Network Error"), w')
           | _ => (inr r, w')
           end
       end.

(** *** The record store (Prisma client) *)

(** A whole number of 32 bits: what an [Int] column of the schema
    ([estimatedDuration], [actualDuration]) keeps as it is given. *)
Definition isInt (x : Js.number) : bool :=
  (Js.floor x =? x) && (-2147483648 <=? x) && (x <=? 2147483647).

Arguments isInt : simpl never.

(** What the store keeps in an [Int] column for a number that is written to
    it: a whole number is kept as it is; of another number the fraction is cut
    off (42 is kept for 42.5); the write is rejected when the number is then
    outside the 32 bits of the column (3000000000, NaN, an infinity).  The
    theorems on writes below rest on the first case only. *)
Definition toInt (x : Js.number) : option Js.number :=
  let whole := if Js.floor x =? x then x
               else if x <? 0 then - Js.floor (- x) else Js.floor x in
  if (-2147483648 <=? whole) && (whole <=? 2147483647) then Some whole else None.

Module prisma.

(** [prisma.route.findUnique({ where: { id }, include: { order, transporter } })]:
    the row with its transporter, or [null]. *)
Definition route_findUnique (id : string) : M (option (Route * Transporter)) :=
  λ w, match routes w !! id with
       | None => (inr None, w)
       | Some r =>
           match transporters w !! transporterId r with
           | Some t => (inr (Some (r, t)), w)
           | None => (inl (runtimeError "Inconsistent query result"), w)
           end
       end.

(** The row [r] with the columns of [data] written, the [Int] ones as the
    store types them; [None] when a number does not fit its column. *)
Definition written (data : RouteData) (r : Route) : option Route :=
  match match dataEstimatedDuration data with
        | Some x => toInt x
        | None => Some (routeEstimatedDuration r)
        end,
        match dataActualDuration data with
        | Some x => Some <$> toInt x
        | None => Some (actualDuration r)
        end with
  | Some estimated, Some actual =>
      Some {| routeId := routeId r; orderId := orderId r;
              transporterId := transporterId r;
              optimizedPath := default (optimizedPath r) (dataOptimizedPath data);
              routeEstimatedDuration := estimated;
              actualDuration := actual;
              distance := default (distance r) (dataDistance data);
              fuelCost := match dataFuelCost data with
                          | Some cost => Some cost
                          | None => fuelCost r
                          end;
              tollCost := match dataTollCost data with
                          | Some cost => Some cost
                          | None => tollCost r
                          end;
              status := default (status r) (dataStatus data);
              createdAt := createdAt r;
              updatedAt := default (updatedAt r) (dataUpdatedAt data) |}
  | _, _ => None
  end.

(** [prisma.route.update({ where: { id }, data })]: [data] overwrites the
    columns it names; the call rejects when no row has the id, and when a
    number does not fit its column. *)
Definition route_update (id : string) (data : RouteData) : M Route :=
  λ w, match routes w !! id with
       | None => (inl (runtimeError "Record to update not found"), w)
       | Some r =>
           match written data r with
           | Some row => (inr row, set_routes (insert id row) w)
           | None =>
               (inl (runtimeError "Unable to fit value into an INT4 (32-bit signed integer)"),
                w)
           end
       end.

(** The row of [rows] with the latest timestamp (the first such row). *)
Fixpoint latest (rows : list TrackingData) : option TrackingData :=
  match rows with
  | [] => None
  | r :: rows' =>
      match latest rows' with
      | Some r' => if (timestamp r <? timestamp r')%Z then Some r' else Some r
      | None => Some r
      end
  end.

(** [prisma.trackingData.findMany({ where: { transporterId, orderId },
    orderBy: { timestamp: 'desc' }, take: 1 })] *)
Definition trackingData_findLatest (tid oid : string) : M (list TrackingData) :=
  λ w, let rows := filter (λ d, trackingTransporterId d = tid ∧
                                 trackingOrderId d = Some oid) (trackingData w) in
       (inr (option_list (latest rows)), w).

End prisma.

(** ** RoutingService *)

(** What the process environment configures: the two API keys.  An unset
    variable and the empty string are both falsy. *)
Record Config := mkConfig {
  googleMapsApiKey : option string;
  mapboxToken : option string
}.

Definition configured (key : option string) : bool :=
  match key with
  | Some k => negb (String.eqb k "")
  | None => false
  end.

(** [xs.reduce((total, x, index) => f total x index, init)] *)
Fixpoint reduce_from {A B} (f : B → A → nat → B) (index : nat) (total : B) (xs : list A) : B :=
  match xs with
  | [] => total
  | x :: xs' => reduce_from f (S index) (f total x index) xs'
  end.

Definition reduce {A B} (f : B → A → nat → B) (init : B) (xs : list A) : B :=
  reduce_from f 0 init xs.

Definition fuelPrices : gmap string Js.number :=
  list_to_map [("MOTORCYCLE", 0.05); ("CAR", 0.08); ("VAN", 0.12);
               ("TRUCK_SMALL", 0.15); ("TRUCK_MEDIUM", 0.20); ("TRUCK_LARGE", 0.25)].

(** The state of the scan for the nearest point: the variables [minDistance],
    [nearest] and [nearestIndex] of [solveTSP]. *)
Record Scan := mkScan {
  minDistance : Js.number;
  nearest : RouteWaypoint;
  nearestIndex : nat
}.

Section RoutingService.

(** The implementation-approximated functions of [Math]. *)
Variables Math_sin Math_cos : Js.number → Js.number.
Variable Math_atan2 : Js.number → Js.number → Js.number.

Variable config : Config.

Definition toRadians (degrees : Js.number) : Js.number :=
  degrees * (Js.PI / 180).

(** Haversine distance in km. *)
Definition calculateDistance (point1 point2 : RouteWaypoint) : Js.number :=
  let R := 6371 in
  let dLat := toRadians (latitude point2 - latitude point1) in
  let dLon := toRadians (longitude point2 - longitude point1) in
  let a := Math_sin (dLat / 2) * Math_sin (dLat / 2) +
           Math_cos (toRadians (latitude point1)) * Math_cos (toRadians (latitude point2)) *
           Math_sin (dLon / 2) * Math_sin (dLon / 2) in
  let c := 2 * Math_atan2 (PrimFloat.sqrt a) (PrimFloat.sqrt (1 - a)) in
  R * c.

(** [distance * (fuelPrices[vehicleType] || 0.10)].  The table is an object
    literal: for a key that it inherits ([toString], [constructor], ...) the
    lookup gives a function or an object, which is truthy and is NaN as a
    factor. *)
Definition calculateFuelCost (distance : Js.number) (vehicleType : string) : Js.number :=
  distance * match fuelPrices !! vehicleType with
             | Some price => if Js.truthy price then price else 0.10
             | None => if Js.inherited vehicleType then nan else 0.10
             end.

(** The callback of the [reduce] in [estimateTollCost], over the array [path].
    [path[index - 1]] is read for [index >= 1] only, where it is defined. *)
Definition addSegment (path : list RouteWaypoint) (total : Js.number)
    (point : RouteWaypoint) (index : nat) : Js.number :=
  match index with
  | O => 0
  | S prev => total + calculateDistance (default point (path !! prev)) point
  end.

(** The sum that [estimateTollCost] takes over the path. *)
Definition pathDistance (path : list RouteWaypoint) : Js.number :=
  reduce (addSegment path) 0 path.

Definition estimateTollCost (path : list RouteWaypoint) : Js.number :=
  let distance := pathDistance path in
  if 50 <? distance then distance * 0.02 else 0.

(** The [for] loop of [solveTSP]: [i] runs over the indices from its start
    value to the end of the array, and [rest] holds the elements from [i]
    on. *)
Fixpoint scan_from (current : RouteWaypoint) (i : nat) (rest : list RouteWaypoint)
    (st : Scan) : Scan :=
  match rest with
  | [] => st
  | p :: rest' =>
      let distance := calculateDistance current p in
      scan_from current (S i) rest'
        (if distance <? minDistance st
         then {| minDistance := distance; nearest := p; nearestIndex := i |}
         else st)
  end.

(** One turn of the [while] loop of [solveTSP], up to the choice of
    [nearest] and [nearestIndex]; [first] is [unvisited[0]]. *)
Definition scan (current first : RouteWaypoint) (others : list RouteWaypoint) : Scan :=
  scan_from current 1 others
    {| minDistance := calculateDistance current first; nearest := first; nearestIndex := 0 |}.

(** The [while (unvisited.length > 0)] loop.  [fuel] bounds the number of
    turns; [None] means the bound was reached with stops left. *)
Fixpoint solveTSP_loop (fuel : nat) (unvisited result : list RouteWaypoint)
    (current : RouteWaypoint) : option (list RouteWaypoint) :=
  match unvisited with
  | [] => Some result
  | first :: others =>
      match fuel with
      | O => None
      | S fuel' =>
          let st := scan current first others in
          solveTSP_loop fuel' (delete (nearestIndex st) unvisited)
            (result ++ [nearest st]) (nearest st)
      end
  end.

(** Nearest-neighbour ordering of [points] from [origin]. *)
Definition solveTSP (origin : RouteWaypoint) (points : list RouteWaypoint)
    : option (list RouteWaypoint) :=
  solveTSP_loop (length points) points [] origin.

(** The [for] loop of [getRemainingWaypoints], on the pair
    [(minDistance, closestIndex)]. *)
Fixpoint closest_from (currentLocation : RouteWaypoint) (i : nat)
    (rest : list RouteWaypoint) (st : Js.number * nat) : Js.number * nat :=
  match rest with
  | [] => st
  | p :: rest' =>
      let distance := calculateDistance currentLocation p in
      closest_from currentLocation (S i) rest'
        (if distance <? fst st then (distance, i) else st)
  end.

(** [originalPath[0]] is [undefined] for an empty path, and reading its
    latitude throws. *)
Definition getRemainingWaypoints (originalPath : list RouteWaypoint)
    (currentLocation : RouteWaypoint) : JsError + list RouteWaypoint :=
  match originalPath with
  | [] => inl (runtimeError "Cannot read properties of undefined (reading 'latitude')")
  | first :: others =>
      let '(_, closestIndex) :=
        closest_from currentLocation 1 others
          (calculateDistance currentLocation first, 0%nat) in
      inr (drop (closestIndex + 1) originalPath)
  end.

Definition parseGoogleMapsPath (legs : list GoogleLeg) : list RouteWaypoint :=
  concat (map (λ leg, map (λ step, point (start_lat step) (start_lng step)) (steps leg)) legs).

Definition parseMapboxPath (coordinates : list (Js.number * Js.number)) : list RouteWaypoint :=
  map (λ coord, point (snd coord) (fst coord)) coordinates.

Definition getBasicRoute (request : RouteOptimizationRequest) : M OptimizedRoute :=
  let distance := calculateDistance (origin request) (destination request) in
  let estimatedSpeed := 50 in
  let duration := (distance / estimatedSpeed) * 60 in
  ret {| path := [origin request] ++ default [] (waypoints request) ++ [destination request];
         totalDistance := distance;
         estimatedDuration := duration;
         estimatedFuelCost := 0;
         estimatedTollCost := 0;
         trafficConditions := "estimated";
         routeWaypoints := default [] (waypoints request) |}.

(** The request sent to the service does not decide the answer in this
    model: the answer is whatever the network holds next.  An answer of
    another shape, or one with no route, makes a property read throw. *)
Definition getGoogleMapsRoute (request : RouteOptimizationRequest) : M OptimizedRoute :=
  try_catch
    (let* response := axios_get in
     match response with
     | GoogleDirections (legs :: _) =>
         ret {| path := parseGoogleMapsPath legs;
                totalDistance := reduce (λ sum leg _, sum + distance_value leg) 0 legs / 1000;
                estimatedDuration := reduce (λ sum leg _, sum + duration_value leg) 0 legs / 60;
                estimatedFuelCost := 0;
                estimatedTollCost := 0;
                trafficConditions :=
                  match legs with
                  | leg :: _ => if duration_in_traffic leg then "real-time" else "estimated"
                  | [] => "estimated"
                  end;
                routeWaypoints := default [] (waypoints request) |}
     | _ => throw (runtimeError "Cannot read properties of undefined (reading 'legs')")
     end)%js
    (λ _, throw (createError "Failed to get route from Google Maps" 500)).

Definition getMapboxRoute (request : RouteOptimizationRequest) : M OptimizedRoute :=
  try_catch
    (let* response := axios_get in
     match response with
     | MapboxDirections (route :: _) =>
         ret {| path := parseMapboxPath (coordinates route);
                totalDistance := mapboxDistance route / 1000;
                estimatedDuration := mapboxDuration route / 60;
                estimatedFuelCost := 0;
                estimatedTollCost := 0;
                trafficConditions := "estimated";
                routeWaypoints := default [] (waypoints request) |}
     | _ => throw (runtimeError "Cannot read properties of undefined (reading 'geometry')")
     end)%js
    (λ _, throw (createError "Failed to get route from Mapbox" 500)).

Definition getExternalRoute (request : RouteOptimizationRequest) : M OptimizedRoute :=
  if configured (googleMapsApiKey config) then getGoogleMapsRoute request
  else if configured (mapboxToken config) then getMapboxRoute request
  else getBasicRoute request.

Definition calculateOptimalRoute (request : RouteOptimizationRequest) : M OptimizedRoute :=
  try_catch
    (let* routeData := getExternalRoute request in
     let fuelCost := calculateFuelCost (totalDistance routeData) (vehicleType request) in
     let tollCost := estimateTollCost (path routeData) in
     ret {| path := path routeData;
            totalDistance := totalDistance routeData;
            estimatedDuration := estimatedDuration routeData;
            estimatedFuelCost := fuelCost;
            estimatedTollCost := tollCost;
            trafficConditions := trafficConditions routeData;
            routeWaypoints := routeWaypoints routeData |})%js
    (λ _, throw (createError "Failed to calculate optimal route" 500)).

(** [updateData]: the new status and the time of the update, and the actual
    duration under [if (actualDuration)]. *)
Definition updateData (status : RouteStatus) (date : Z) (actualDuration : option Js.number)
    : RouteData :=
  {| dataStatus := Some status;
     dataUpdatedAt := Some date;
     dataActualDuration :=
       match actualDuration with
       | Some d => if Js.truthy d then Some d else None
       | None => None
       end;
     dataOptimizedPath := None; dataEstimatedDuration := None; dataDistance := None;
     dataFuelCost := None; dataTollCost := None |}.

Definition updateRouteStatus (routeId : string) (status : RouteStatus)
    (actualDuration : option Js.number) : M Route :=
  try_catch
    (let* date := now in
     let* route := prisma.route_update routeId (updateData status date actualDuration) in
     ret route)%js
    (λ _, throw (createError "Failed to update route status" 500)).

Definition getRouteById (routeId : string) : M (Route * Transporter) :=
  try_catch
    (let* route := prisma.route_findUnique routeId in
     match route with
     | None => throw (createError "Route not found" 404)
     | Some route => ret route
     end)%js
    (λ error,
       if String.eqb (message error) "Route not found" then throw error
       else throw (createError "Failed to fetch route" 500)).

(** The [data] of the write of [recalculateRoute]. *)
Definition recalculationData (newRoute : OptimizedRoute) (date : Z) : RouteData :=
  {| dataOptimizedPath := Some (path newRoute);
     dataEstimatedDuration := Some (estimatedDuration newRoute);
     dataDistance := Some (totalDistance newRoute);
     dataFuelCost := Some (estimatedFuelCost newRoute);
     dataTollCost := Some (estimatedTollCost newRoute);
     dataUpdatedAt := Some date;
     dataActualDuration := None; dataStatus := None |}.

(** The row [r] with these columns overwritten by the values of [newRoute]:
    the row after the write, when the column keeps the estimated duration as
    it is. *)
Definition recalculatedData (newRoute : OptimizedRoute) (date : Z) (r : Route) : Route :=
  {| routeId := routeId r; orderId := orderId r; transporterId := transporterId r;
     optimizedPath := path newRoute;
     routeEstimatedDuration := estimatedDuration newRoute;
     actualDuration := actualDuration r;
     distance := totalDistance newRoute;
     fuelCost := Some (estimatedFuelCost newRoute);
     tollCost := Some (estimatedTollCost newRoute);
     status := status r;
     createdAt := createdAt r;
     updatedAt := date |}.

(** The [try] block of [recalculateRoute].
    [remainingWaypoints[remainingWaypoints.length - 1]] is read after the test
    [remainingWaypoints.length === 0]: the match on [last] does both. *)
Definition recalculateRoute_try (routeId : string) (currentLocation : RouteWaypoint)
    : M OptimizedRoute :=
  (let* route := getRouteById routeId in
   let originalPath := optimizedPath (fst route) in
   let* remainingWaypoints := lift (getRemainingWaypoints originalPath currentLocation) in
   match last remainingWaypoints with
   | None => throw (createError "Route already completed" 400)
   | Some final =>
       let request :=
         {| origin := currentLocation;
            destination := final;
            waypoints := Some (take (length remainingWaypoints - 1) remainingWaypoints);
            vehicleType := transporterVehicleType (snd route);
            trafficModel := None;
            departureTime := None |} in
       let* newRoute := calculateOptimalRoute request in
       let* date := now in
       prisma.route_update routeId (recalculationData newRoute date) ;;
       ret newRoute
   end)%js.

Definition recalculateRoute (routeId : string) (currentLocation : RouteWaypoint)
    : M OptimizedRoute :=
  try_catch (recalculateRoute_try routeId currentLocation)
    (λ _, throw (createError "Failed to recalculate route" 500)).

(** [path.slice(0, -1).map((point, index) => ...)]: one condition per
    segment, each drawing from [Math.random()]. *)
Fixpoint getTrafficData (path : list RouteWaypoint) : M (list TrafficCondition) :=
  match path with
  | start :: (next :: _) as path' =>
      (let* r1 := Math_random in
       let* r2 := Math_random in
       let* delay := if 0.7 <? r2
                     then (let* r3 := Math_random in ret (Js.floor (r3 * 15)))
                     else ret 0 in
       let* others := getTrafficData path' in
       ret ({| segment_start := start; segment_end := next;
               condition := if 0.7 <? r1 then heavy else light;
               delay := delay |} :: others))%js
  | _ => ret []
  end.

Definition getRealTimeTrafficUpdate (routeId : string) : M (list TrafficCondition) :=
  try_catch
    (let* route := getRouteById routeId in
     getTrafficData (optimizedPath (fst route)))%js
    (λ _, throw (createError "Failed to get traffic update" 500)).

(** *** [api/routes.ts]: GET /:id/tracking *)

(** [data.route] is the row with its included transporter; the included order
    is a row of the [orders] table, which the world of this service does not
    hold. *)
Record TrackingResponse := mkTrackingResponse {
  responseRoute : Route;
  responseTransporter : Transporter;
  responseLocation : option TrackingData;
  progress : Js.number;
  estimatedTimeRemaining : Js.number;
  lastUpdate : option Z
}.

(** The distance that the handler computes in line from the tracked
    location to a point of the path. *)
Definition trackingDistance (currentLocation : TrackingData) (point : RouteWaypoint)
    : Js.number :=
  let R := 6371 in
  let dLat := (latitude point - trackingLatitude currentLocation) * (Js.PI / 180) in
  let dLon := (longitude point - trackingLongitude currentLocation) * (Js.PI / 180) in
  let a := Math_sin (dLat / 2) * Math_sin (dLat / 2) +
           Math_cos (trackingLatitude currentLocation * (Js.PI / 180)) *
           Math_cos (latitude point * (Js.PI / 180)) *
           Math_sin (dLon / 2) * Math_sin (dLon / 2) in
  2 * Math_atan2 (PrimFloat.sqrt a) (PrimFloat.sqrt (1 - a)) * R.

(** The block "Calculate progress" of the handler. *)
Definition calculateProgress (currentLocation : option TrackingData)
    (routePath : list RouteWaypoint) : Js.number :=
  match currentLocation with
  | Some currentLocation =>
      if (0 <? length routePath)%nat then
        let distances := map (trackingDistance currentLocation) routePath in
        let closestPointIndex := Js.indexOf distances (Js.min distances) in
        Js.round ((Js.of_Z closestPointIndex / Js.of_Z (Z.of_nat (length routePath) - 1)) * 100)
      else 0
  | None => 0
  end.

(** The handler answers with this body, or passes the error on
    ([next(error)]). *)
Definition getTracking (id : string) : M TrackingResponse :=
  (let* route := getRouteById id in
   let* trackingData :=
     prisma.trackingData_findLatest (transporterId (fst route)) (orderId (fst route)) in
   let currentLocation := head trackingData in
   let routePath := optimizedPath (fst route) in
   let progress := calculateProgress currentLocation routePath in
   ret {| responseRoute := fst route;
          responseTransporter := snd route;
          responseLocation := currentLocation;
          progress := progress;
          estimatedTimeRemaining :=
            routeEstimatedDuration (fst route) * (1 - progress / 100);
          lastUpdate := timestamp <$> currentLocation |})%js.

End RoutingService.

(** ** A reference implementation of [Math.sin], [Math.cos] and [Math.atan2]

    ECMAScript leaves the three functions to the implementation.  The examples
    of this development run the service with the ones below: power series,
    accurate to about 1e-15 on the arguments that the haversine formula gives
    them (angles within [-pi, pi]; non-negative arguments of [atan2]). *)

Module Reference.

(** [1 - x2/(k(k+1)) (1 - x2/((k+2)(k+3)) (...))], [n] factors deep. *)
Fixpoint alternating (n : nat) (k x2 : float) : float :=
  match n with
  | O => 1
  | S n' => 1 - x2 / (k * (k + 1)) * alternating n' (k + 2) x2
  end.

Definition sin (x : float) : float := x * alternating 16 2 (x * x).

Definition cos (x : float) : float := alternating 16 1 (x * x).

(** [1/k - u2 (1/(k+2) - u2 (...))] *)
Fixpoint gregory (n : nat) (k u2 : float) : float :=
  match n with
  | O => 1 / k
  | S n' => 1 / k - u2 * gregory n' (k + 2) u2
  end.

(** The arc tangent of [t] in [0, 1]: the argument is halved three times
    ([atan t = 2 atan (t / (1 + sqrt (1 + t^2)))]) before the series. *)
Definition halve (t : float) : float := t / (1 + PrimFloat.sqrt (1 + t * t)).

Definition atan_unit (t : float) : float :=
  let u := halve (halve (halve t)) in
  8 * (u * gregory 14 1 (u * u)).

Definition atan_pos (t : float) : float :=
  if 1 <? t then Js.PI / 2 - atan_unit (1 / t) else atan_unit t.

Definition atan (t : float) : float :=
  if t <? 0 then - atan_pos (- t) else atan_pos t.

Definition atan2 (y x : float) : float :=
  if Js.isNaN x || Js.isNaN y then nan
  else if 0 <? x then atan (y / x)
  else if x <? 0 then (if y <? 0 then atan (y / x) - Js.PI else atan (y / x) + Js.PI)
  else if 0 <? y then Js.PI / 2
  else if y <? 0 then - (Js.PI / 2)
  else 0.

Definition distance : RouteWaypoint → RouteWaypoint → Js.number :=
  calculateDistance sin cos atan2.

End Reference.

(** * The rest of the services *)

(** ** [RoutingService]: [createRoute] and [optimizeMultipleDeliveries] *)

(** [true] when a row of the [routes] table belongs to the order ([orderId] is
    [@unique]). *)
Definition orderHasRoute (oid : string) (rows : gmap string Route) : bool :=
  bool_decide (map_Exists (λ _ r, orderId r = oid) rows).

Section RoutingServiceRest.

Variables Math_sin Math_cos : Js.number → Js.number.
Variable Math_atan2 : Js.number → Js.number → Js.number.
Variable config : Config.

(** The ids of the rows of the [orders] table, which [World] does not hold. *)
Variable knownOrder : string → bool.

(** The row that the store keeps for the [data] of a [create]: its [Int]
    columns typed; [None] when a number does not fit its column. *)
Definition prisma_created (data : Route) : option Route :=
  prisma.written
    {| dataEstimatedDuration := Some (routeEstimatedDuration data);
       dataActualDuration := actualDuration data;
       dataOptimizedPath := None; dataDistance := None; dataFuelCost := None;
       dataTollCost := None; dataStatus := None; dataUpdatedAt := None |} data.

(** [prisma.route.create({ data, include })].  [newId] is the id that the
    store generates for the row ([cuid()]).  The store rejects a row with a
    number that does not fit its column, one whose id or whose order already
    has a row, and one whose order or transporter does not exist (the two
    relations). *)
Definition prisma_route_create (newId : string) (data : Z → Route) : M Route :=
  λ w, match prisma_created (data (clock w)) with
       | None =>
           (inl (runtimeError "Unable to fit value into an INT4 (32-bit signed integer)"), w)
       | Some row =>
           if bool_decide (is_Some (routes w !! newId)) then
             (inl (runtimeError "Unique constraint failed on the fields: (`id`)"), w)
           else if orderHasRoute (orderId row) (routes w) then
             (inl (runtimeError "Unique constraint failed on the fields: (`orderId`)"), w)
           else if negb (knownOrder (orderId row)) then
             (inl (runtimeError "Foreign key constraint failed on the field: `orderId`"), w)
           else if bool_decide (is_Some (transporters w !! transporterId row)) then
             (inr row, set_routes (insert newId row) w)
           else
             (inl (runtimeError "Foreign key constraint failed on the field: `transporterId`"),
              w)
       end.

(** The row that [createRoute] asks the store to create. *)
Definition createdData (newId orderId transporterId : string)
    (optimizedRoute : OptimizedRoute) (date : Z) : Route :=
  {| routeId := newId; orderId := orderId; transporterId := transporterId;
     optimizedPath := path optimizedRoute;
     routeEstimatedDuration := estimatedDuration optimizedRoute;
     actualDuration := None;
     distance := totalDistance optimizedRoute;
     fuelCost := Some (estimatedFuelCost optimizedRoute);
     tollCost := Some (estimatedTollCost optimizedRoute);
     status := PLANNED;
     createdAt := date;
     updatedAt := date |}.

Definition createRoute (newId : string) (orderId transporterId : string)
    (optimizationRequest : RouteOptimizationRequest) : M Route :=
  try_catch
    (let* optimizedRoute :=
       calculateOptimalRoute Math_sin Math_cos Math_atan2 config optimizationRequest in
     let* route :=
       prisma_route_create newId (createdData newId orderId transporterId optimizedRoute) in
     ret route)%js
    (λ _, throw (createError "Failed to create route" 500)).

(** [prisma.transporter.findUnique({ where: { id } })] *)
Definition prisma_transporter_findUnique (id : string) : M (option Transporter) :=
  λ w, (inr (transporters w !! id), w).

(** The [try] block of [optimizeMultipleDeliveries].  With no delivery point,
    [optimizedOrder[optimizedOrder.length - 1]] is [undefined], and every
    variant of [calculateOptimalRoute] throws on reading its latitude, before
    any call to the network: the error of its [catch] is thrown here.  The
    loop of [solveTSP] always ends ([solveTSP_permutation]); the bound of the
    model is never reached. *)
Definition optimizeMultipleDeliveries_try (transporterId : string)
    (deliveryPoints : list RouteWaypoint) : M OptimizedRoute :=
  (let* transporter := prisma_transporter_findUnique transporterId in
   match transporter with
   | None => throw (createError "Transporter location not available" 400)
   | Some transporter =>
       match currentLocation transporter with
       | None => throw (createError "Transporter location not available" 400)
       | Some currentLocation =>
           let origin := point (fst currentLocation) (snd currentLocation) in
           match solveTSP Math_sin Math_cos Math_atan2 origin deliveryPoints with
           | None => throw (runtimeError "loop bound reached")
           | Some optimizedOrder =>
               match last optimizedOrder with
               | None => throw (createError "Failed to calculate optimal route" 500)
               | Some final =>
                   calculateOptimalRoute Math_sin Math_cos Math_atan2 config
                     {| origin := origin;
                        destination := final;
                        waypoints := Some (take (length optimizedOrder - 1) optimizedOrder);
                        vehicleType := transporterVehicleType transporter;
                        trafficModel := None;
                        departureTime := None |}
               end
           end
       end
   end)%js.

Definition optimizeMultipleDeliveries (transporterId : string)
    (deliveryPoints : list RouteWaypoint) : M OptimizedRoute :=
  try_catch (optimizeMultipleDeliveries_try transporterId deliveryPoints)
    (λ _, throw (createError "Failed to optimize route" 500)).

End RoutingServiceRest.

(** ** [TransporterService.updateLocation] *)

(** [prisma.transporter.update({ where: { id }, data })] *)
Definition prisma_transporter_update (id : string) (data : Transporter → Transporter)
    : M Transporter :=
  λ w, match transporters w !! id with
       | None => (inl (runtimeError "Record to update not found"), w)
       | Some t =>
           (inr (data t),
            {| routes := routes w; transporters := <[id := data t]> (transporters w);
               trackingData := trackingData w; clock := clock w; random := random w;
               network := network w |})
       end.

(** [prisma.trackingData.create({ data })]: the row needs its transporter. *)
Definition prisma_trackingData_create (data : Z → TrackingData) : M TrackingData :=
  λ w, let row := data (clock w) in
       match transporters w !! trackingTransporterId row with
       | None =>
           (inl (runtimeError "Foreign key constraint failed on the field: `transporterId`"), w)
       | Some _ =>
           (inr row,
            {| routes := routes w; transporters := transporters w;
               trackingData := trackingData w ++ [row]; clock := clock w;
               random := random w; network := network w |})
       end.

Definition updateLocation (id : string) (location : Js.number * Js.number) : M unit :=
  try_catch
    (prisma_transporter_update id
       (λ t, {| transporterVehicleType := transporterVehicleType t;
                currentLocation := Some location |}) ;;
     prisma_trackingData_create
       (λ date, {| trackingTransporterId := id; trackingOrderId := None;
                   trackingLatitude := fst location; trackingLongitude := snd location;
                   timestamp := date |}) ;;
     ret tt)%js
    (λ _, throw (createError "Failed to update location" 500)).

(** Everything of the world but the answers of the network still to come. *)
Definition same_store (w w' : World) : Prop :=
  routes w' = routes w ∧ transporters w' = transporters w ∧
  trackingData w' = trackingData w ∧ clock w' = clock w ∧ random w' = random w.

(** The last known location of a transporter, if the transporter exists and
    has one. *)
Definition lastKnownLocation (w : World) (id : string) : option (Js.number * Js.number) :=
  transporters w !! id ≫= currentLocation.

(** ** [OrderService] (the first module of [src/services/orderService.ts])

    The orders table, the ids of the transporters it may refer to, and the
    clock are the state of its calls.  The relations that the calls include in
    what they return ([transporter], [route], ...) are left out of the
    returned order. *)

Module Orders.

Inductive OrderStatus := PENDING | ASSIGNED | IN_TRANSIT | DELIVERED | CANCELLED | FAILED.

Record Location := mkLocation {
  locationLatitude : Js.number;
  locationLongitude : Js.number;
  locationAddress : string
}.

Record CreateOrderData := mkCreateOrderData {
  dataCustomerId : string;
  dataPickupLocation : Location;
  dataDeliveryLocation : Location;
  dataPickupTime : Z;
  dataDeliveryTime : option Z;
  dataWeight : Js.number;
  dataDimensions : Js.number * Js.number * Js.number;
  dataSpecialRequirements : option string
}.

Record Order := mkOrder {
  orderIdent : string;
  customerId : string;
  pickupLocation : Location;
  deliveryLocation : Location;
  pickupTime : Z;
  deliveryTime : option Z;
  weight : Js.number;
  dimensions : Js.number * Js.number * Js.number;
  specialRequirements : option string;
  orderStatus : OrderStatus;
  orderTransporterId : option string;
  orderCreatedAt : Z;
  orderUpdatedAt : Z
}.

Record Store := mkStore {
  orders : gmap string Order;
  transporterIds : gset string;
  storeClock : Z
}.

Definition set_orders (f : gmap string Order → gmap string Order) (s : Store) : Store :=
  {| orders := f (orders s); transporterIds := transporterIds s; storeClock := storeClock s |}.

(** An [async] method of the service. *)
Definition St (A : Type) : Type := Store → (JsError + A) * Store.

Definition pure {A} (a : A) : St A := λ s, (inr a, s).

Definition raise {A} (e : JsError) : St A := λ s, (inl e, s).

Definition andThen {A B} (m : St A) (k : A → St B) : St B :=
  λ s, match m s with
       | (inl e, s') => (inl e, s')
       | (inr a, s') => k a s'
       end.

(** [try { body } catch (error) { handler }] *)
Definition attempt {A} (body : St A) (handler : JsError → St A) : St A :=
  λ s, match body s with
       | (inl e, s') => handler e s'
       | (inr a, s') => (inr a, s')
       end.

Declare Scope order_scope.
Delimit Scope order_scope with order.
Notation "'let*' x ':=' m 'in' k" := (andThen m (λ x, k))
  (at level 10, x name, m at level 100, k at level 200) : order_scope.

(** [new Date()] *)
Definition today : St Z := λ s, (inr (storeClock s), s).

(** [(error as any).statusCode] as a condition. *)
Definition hasStatusCode (e : JsError) : bool :=
  match statusCode e with
  | Some code => negb (code =? 0)%Z
  | None => false
  end.

(** [prisma.order.create({ data, include })], with the id that the store
    generates. *)
Definition prisma_order_create (newId : string) (data : Z → Order) : St Order :=
  λ s, if bool_decide (is_Some (orders s !! newId)) then
         (inl (runtimeError "Unique constraint failed on the fields: (`id`)"), s)
       else (inr (data (storeClock s)), set_orders (insert newId (data (storeClock s))) s).

(** [prisma.order.findUnique({ where: { id }, include })] *)
Definition prisma_order_findUnique (id : string) : St (option Order) :=
  λ s, (inr (orders s !! id), s).

(** [prisma.order.update({ where: { id }, data, include })].  [reference] is
    the transporter id that [data] sets, if it sets one: the store rejects an
    id that no transporter has. *)
Definition prisma_order_update (id : string) (reference : option string)
    (data : Order → Order) : St Order :=
  λ s, match orders s !! id with
       | None => (inl (runtimeError "Record to update not found"), s)
       | Some o =>
           if match reference with
              | Some t => bool_decide (t ∈ transporterIds s)
              | None => true
              end
           then (inr (data o), set_orders (insert id (data o)) s)
           else (inl (runtimeError
                        "Foreign key constraint failed on the field: `transporterId`"), s)
       end.

Definition set_status (status : OrderStatus) (transporter : option string) (date : Z)
    (o : Order) : Order :=
  {| orderIdent := orderIdent o; customerId := customerId o;
     pickupLocation := pickupLocation o; deliveryLocation := deliveryLocation o;
     pickupTime := pickupTime o; deliveryTime := deliveryTime o; weight := weight o;
     dimensions := dimensions o; specialRequirements := specialRequirements o;
     orderStatus := status;
     orderTransporterId := transporter;
     orderCreatedAt := orderCreatedAt o;
     orderUpdatedAt := date |}.

Definition createOrder (newId : string) (data : CreateOrderData) : St Order :=
  attempt
    (let* order :=
       prisma_order_create newId
         (λ date, {| orderIdent := newId; customerId := dataCustomerId data;
                     pickupLocation := dataPickupLocation data;
                     deliveryLocation := dataDeliveryLocation data;
                     pickupTime := dataPickupTime data;
                     deliveryTime := dataDeliveryTime data;
                     weight := dataWeight data; dimensions := dataDimensions data;
                     specialRequirements := dataSpecialRequirements data;
                     orderStatus := PENDING; orderTransporterId := None;
                     orderCreatedAt := date; orderUpdatedAt := date |}) in
     pure order)%order
    (λ _, raise (createError "Failed to create order" 500)).

Definition getOrderById (id : string) : St Order :=
  attempt
    (let* order := prisma_order_findUnique id in
     match order with
     | None => raise (createError "Order not found" 404)
     | Some order => pure order
     end)%order
    (λ error,
       if String.eqb (message error) "Order not found" then raise error
       else raise (createError "Failed to fetch order" 500)).

Definition updateOrderStatus (id : string) (status : OrderStatus) : St Order :=
  attempt
    (let* date := today in
     let* order :=
       prisma_order_update id None (λ o, set_status status (orderTransporterId o) date o) in
     pure order)%order
    (λ _, raise (createError "Failed to update order status" 500)).

Definition assignTransporter (orderId transporterId : string) : St Order :=
  attempt
    (let* date := today in
     let* order :=
       prisma_order_update orderId (Some transporterId)
         (set_status ASSIGNED (Some transporterId) date) in
     pure order)%order
    (λ _, raise (createError "Failed to assign transporter" 500)).

Definition cancelOrder (id : string) : St Order :=
  attempt
    (let* order := getOrderById id in
     match orderStatus order with
     | DELIVERED => raise (createError "Cannot cancel delivered order" 400)
     | IN_TRANSIT => raise (createError "Cannot cancel order in transit" 400)
     | _ =>
         let* date := today in
         let* updatedOrder :=
           prisma_order_update id None
             (λ o, set_status CANCELLED (orderTransporterId o) date o) in
         pure updatedOrder
     end)%order
    (λ error,
       if hasStatusCode error then raise error
       else raise (createError "Failed to cancel order" 500)).

End Orders.

(** ** The rate limiter ([src/middleware/rateLimiter.ts])

    Times ([Date.now()], in milliseconds) and counts are integers, far below
    2^53: they are modelled in [Z]. *)

Module RateLimiter.

Record Entry := mkEntry { count : Z; resetTime : Z }.

Definition WINDOW_SIZE : Z := 15 * 60 * 1000.

Definition MAX_REQUESTS : Z := 100.

(** What the middleware does with the request: [next()], or the answer 429
    with its [retryAfter]. *)
Inductive Outcome := Next | TooManyRequests (retryAfter : Z).

(** [req.ip || 'unknown'] *)
Definition clientOf (ip : option string) : string :=
  match ip with
  | Some ip => if String.eqb ip "" then "unknown" else ip
  | None => "unknown"
  end.

(** The store is a plain object: for a key that names a property of
    [Object.prototype], [store[key]] is that property when the store has no
    entry of its own. *)
Definition inherited (key : string) : bool := Js.inherited key.

(** "Clean up expired entries": every key whose entry has
    [resetTime < now] is deleted. *)
Definition cleanUp (now : Z) (store : gmap string Entry) : gmap string Entry :=
  filter (λ kv, ¬ (resetTime kv.2 < now)%Z) store.

(** [Math.ceil(x / 1000)] for an integer [x]. *)
Definition ceilSeconds (x : Z) : Z := ((x + 999) / 1000)%Z.

Definition rateLimiter (ip : option string) (now : Z) (store : gmap string Entry)
    : Outcome * gmap string Entry :=
  let clientId := clientOf ip in
  let store := cleanUp now store in
  match store !! clientId with
  | None =>
      if inherited clientId then
        (* [store[clientId]] is truthy; its [resetTime] is [undefined], and
           [undefined < now] is false; [count++] leaves NaN in a property of
           the inherited object, and [NaN > MAX_REQUESTS] is false *)
        (Next, store)
      else
        (Next, <[clientId := {| count := 1; resetTime := now + WINDOW_SIZE |}]> store)
  | Some entry =>
      if (resetTime entry <? now)%Z then
        (Next, <[clientId := {| count := 1; resetTime := now + WINDOW_SIZE |}]> store)
      else
        let entry := {| count := count entry + 1; resetTime := resetTime entry |} in
        let store := <[clientId := entry]> store in
        if (MAX_REQUESTS <? count entry)%Z then
          (TooManyRequests (ceilSeconds (resetTime entry - now)), store)
        else (Next, store)
  end.

(** The middleware over a sequence of requests, each with its address and
    the time it arrives at. *)
Fixpoint serve (requests : list (option string * Z)) (store : gmap string Entry)
    : list Outcome * gmap string Entry :=
  match requests with
  | [] => ([], store)
  | (ip, now) :: requests' =>
      let '(outcome, store') := rateLimiter ip now store in
      let '(outcomes, store'') := serve requests' store' in
      (outcome :: outcomes, store'')
  end.

End RateLimiter.

(** * Definitions of the specification's side, and sample data *)

(** The total length of a path in the specification's words: the distances
    between consecutive points, summed from the start of the path. *)
Fixpoint consecutiveDistances (dist : RouteWaypoint → RouteWaypoint → Js.number)
    (path : list RouteWaypoint) : list Js.number :=
  match path with
  | a :: (b :: _) as rest => dist a b :: consecutiveDistances dist rest
  | _ => []
  end.

Definition sumFrom (total : Js.number) (xs : list Js.number) : Js.number :=
  foldl PrimFloat.add total xs.

(** The toll for a path of a given total length, in the specification's
    words: nothing up to 50 km, 0.02 per km beyond. *)
Definition tollFor (total : Js.number) : Js.number :=
  if total <=? 50 then 0 else total * 0.02.

Definition set_waypoints (request : RouteOptimizationRequest)
    (wps : option (list RouteWaypoint)) : RouteOptimizationRequest :=
  {| origin := origin request; destination := destination request; waypoints := wps;
     vehicleType := vehicleType request; trafficModel := trafficModel request;
     departureTime := departureTime request |}.

(** The nearest-neighbour rule in the specification's words: from the current
    position, the next stop is a remaining stop ([remaining !! k]) such that
    no remaining stop is strictly nearer and no remaining stop before it in
    the order of the input is as near; the position moves to it, and it leaves
    the remaining stops.  When the distances from the current position are
    numbers, the distance of the next stop is at most that of every remaining
    stop. *)
Inductive greedy_tour (dist : RouteWaypoint → RouteWaypoint → Js.number)
    : RouteWaypoint → list RouteWaypoint → list RouteWaypoint → Prop :=
  | greedy_done current : greedy_tour dist current [] []
  | greedy_next current remaining k next tour :
      remaining !! k = Some next →
      (∀ j q, remaining !! j = Some q → (dist current q <? dist current next) = false) →
      (∀ j q, (j < k)%nat → remaining !! j = Some q →
              (dist current q <=? dist current next) = false) →
      (Forall (λ q, Js.isNaN (dist current q) = false) remaining →
       Forall (λ q, (dist current next <=? dist current q) = true) remaining) →
      greedy_tour dist next (delete k remaining) tour →
      greedy_tour dist current remaining (next :: tour).

Section FallbackRoute.

Variables Math_sin Math_cos : Js.number → Js.number.
Variable Math_atan2 : Js.number → Js.number → Js.number.

(** The route that the fallback variant computes for a request. *)
Definition fallbackRoute (request : RouteOptimizationRequest) : OptimizedRoute :=
  let distance :=
    calculateDistance Math_sin Math_cos Math_atan2 (origin request) (destination request) in
  let path := origin request :: default [] (waypoints request) ++ [destination request] in
  {| path := path;
     totalDistance := distance;
     estimatedDuration := (distance / 50) * 60;
     estimatedFuelCost := calculateFuelCost distance (vehicleType request);
     estimatedTollCost := estimateTollCost Math_sin Math_cos Math_atan2 path;
     trafficConditions := "estimated";
     routeWaypoints := default [] (waypoints request) |}.

End FallbackRoute.

(** ** Sample data *)

Module Samples.

Definition fallback : Config := {| googleMapsApiKey := None; mapboxToken := None |}.

Definition google : Config := {| googleMapsApiKey := Some "key"; mapboxToken := None |}.

(** The stored route of order "order-1", with a given path and status. *)
Definition route (path : list RouteWaypoint) (s : RouteStatus) : Route :=
  {| routeId := "route-1"; orderId := "order-1"; transporterId := "transporter-1";
     optimizedPath := path;
     routeEstimatedDuration := 133; actualDuration := None; distance := 111.2;
     fuelCost := Some 13.3; tollCost := Some 2.2; status := s;
     createdAt := 1%Z; updatedAt := 1%Z |}.

Definition van : Transporter :=
  {| transporterVehicleType := "VAN"; currentLocation := None |}.

Definition world (path : list RouteWaypoint) (s : RouteStatus)
    (tracked : list TrackingData) (answers : list HttpResponse) : World :=
  {| routes := {[ "route-1" := route path s ]};
     transporters := {[ "transporter-1" := van ]};
     trackingData := tracked;
     clock := 1000%Z;
     random := [0.9; 0.8; 0.5; 0.1; 0.2];
     network := answers |}.

Definition equator : list RouteWaypoint := [point 0 0; point 0 1].

Definition request : RouteOptimizationRequest :=
  {| origin := point 0 0; destination := point 0 1; waypoints := None;
     vehicleType := "VAN"; trafficModel := None; departureTime := None |}.

Definition tracked (lat lng : Js.number) : TrackingData :=
  {| trackingTransporterId := "transporter-1"; trackingOrderId := Some "order-1";
     trackingLatitude := lat; trackingLongitude := lng; timestamp := 900%Z |}.

End Samples.

(** ** Sample data for the rest of the services *)

Module MoreSamples.

(** A transporter whose last known location is (0, 0). *)
Definition located : Transporter :=
  {| transporterVehicleType := "VAN"; currentLocation := Some (0, 0) |}.

Definition world (path : list RouteWaypoint) : World :=
  {| routes := {[ "route-1" := Samples.route path IN_PROGRESS ]};
     transporters := {[ "transporter-1" := located ]};
     trackingData := [Samples.tracked 0 1];
     clock := 1000%Z;
     random := [];
     network := [] |}.

Definition everyOrder (id : string) : bool := true.

(** A request whose delivery point is its pickup point: the straight-line
    distance is 0 km and the estimated duration 0 minutes. *)
Definition onTheSpot : RouteOptimizationRequest :=
  {| origin := point 0 0; destination := point 0 0; waypoints := None;
     vehicleType := "VAN"; trafficModel := None; departureTime := None |}.

Definition orderData : Orders.CreateOrderData :=
  {| Orders.dataCustomerId := "customer-1";
     Orders.dataPickupLocation :=
       {| Orders.locationLatitude := 0; Orders.locationLongitude := 0;
          Orders.locationAddress := "A" |};
     Orders.dataDeliveryLocation :=
       {| Orders.locationLatitude := 0; Orders.locationLongitude := 1;
          Orders.locationAddress := "B" |};
     Orders.dataPickupTime := 2000%Z;
     Orders.dataDeliveryTime := None;
     Orders.dataWeight := 12.5;
     Orders.dataDimensions := (1, 1, 1);
     Orders.dataSpecialRequirements := None |}.

Definition orderStore : Orders.Store :=
  {| Orders.orders := ∅; Orders.transporterIds := {[ "transporter-1" ]};
     Orders.storeClock := 1000%Z |}.

End MoreSamples.

(** * Properties *)

(** The functions of [Js] on values that tell their cases apart. *)
Example round_examples :
  Js.round 2.5 = 3 /\ Js.round 3.5 = 4 /\ Js.round (-2.5) = -2 /\
  Js.round (-3.5) = -3 /\ Js.round 0.49999999999999994 = 0 /\
  Js.round 33.333333333333336 = 33 /\ Js.round 66.66666666666667 = 67 /\
  Js.round 100 = 100 /\ Js.round nan = nan /\
  Js.round neg_infinity = neg_infinity /\ Js.round 0.5 = 1 /\
  Js.round (-0.5) = -0 /\ Js.round 1.4999 = 1 /\ Js.round (-1.5) = -1 /\
  Js.round (-0) = -0 /\ Js.round 0 = 0 /\ Js.round infinity = infinity /\
  Js.floor 7.5 = 7 /\ Js.floor (-7.5) = -8 /\ Js.floor 14.999 = 14 /\
  Js.floor 3 = 3 /\ Js.floor (-0) = -0 /\
  Js.min [3; 1; 2] = 1 /\ Js.min [0; -0] = -0 /\ Js.min [-0; 0] = -0 /\
  Js.min [1; nan; 0] = nan /\ Js.min [] = infinity /\
  Js.indexOf [3; 1; 2; 1] 1 = 1%Z /\ Js.indexOf [3; nan] nan = (-1)%Z /\
  Js.indexOf [-0] 0 = 0%Z.
Proof. vm_compute. repeat split. Qed.


(** ** The order of the comparison of numbers *)

Module FloatOrder.

(** The place of a number that is not NaN in the order of the comparison:
    class first (-oo, negative, zero, positive, +oo), then exponent, then
    mantissa, both reversed for a negative number. *)
Definition rank (f : spec_float) : Z * Z * Z :=
  match f with
  | S754_nan => (0, 0, 0)%Z
  | S754_zero _ => (0, 0, 0)%Z
  | S754_infinity true => (-2, 0, 0)%Z
  | S754_infinity false => (2, 0, 0)%Z
  | S754_finite true m e => (-1, - e, - Z.pos m)%Z
  | S754_finite false m e => (1, e, Z.pos m)%Z
  end.

Definition lex (a b : Z * Z * Z) : comparison :=
  let '(a1, a2, a3) := a in
  let '(b1, b2, b3) := b in
  match (a1 ?= b1)%Z with
  | Eq => match (a2 ?= b2)%Z with Eq => (a3 ?= b3)%Z | c => c end
  | c => c
  end.

Definition is_nan (f : spec_float) : bool :=
  match f with S754_nan => true | _ => false end.

Definition lt3 (a b : Z * Z * Z) : Prop :=
  (a.1.1 < b.1.1 ∨ (a.1.1 = b.1.1 ∧ (a.1.2 < b.1.2 ∨ (a.1.2 = b.1.2 ∧ a.2 < b.2))))%Z.

Definition eq3 (a b : Z * Z * Z) : Prop :=
  (a.1.1 = b.1.1 ∧ a.1.2 = b.1.2 ∧ a.2 = b.2)%Z.

(** The comparisons of numbers, read on their ranks. *)
Definition NaN (x : float) : Prop := is_nan (Prim2SF x) = true.
Definition rk (x : float) : Z * Z * Z := rank (Prim2SF x).

Lemma SFcompare_rank f1 f2 :
  SFcompare f1 f2 =
  if (is_nan f1 || is_nan f2)%bool then None else Some (lex (rank f1) (rank f2)).
Proof.
  destruct f1 as [s1| s1 | | s1 m1 e1], f2 as [s2 | s2 | | s2 m2 e2];
    try destruct s1; try destruct s2; cbn; try reflexivity.
  rewrite Z.compare_opp.
  destruct (Z.compare_spec e1 e2), (Z.compare_spec e2 e1); try lia; reflexivity.
Qed.

Lemma lex_Lt a b : lex a b = Lt ↔ lt3 a b.
Proof.
  destruct a as [[a1 a2] a3], b as [[b1 b2] b3]; unfold lex, lt3; cbn.
  destruct (Z.compare_spec a1 b1), (Z.compare_spec a2 b2), (Z.compare_spec a3 b3);
    split; intros; try discriminate; try reflexivity; lia.
Qed.

Lemma lex_Gt a b : lex a b = Gt ↔ lt3 b a.
Proof.
  destruct a as [[a1 a2] a3], b as [[b1 b2] b3]; unfold lex, lt3; cbn.
  destruct (Z.compare_spec a1 b1), (Z.compare_spec a2 b2), (Z.compare_spec a3 b3);
    split; intros; try discriminate; try reflexivity; lia.
Qed.

Lemma lt3_irrefl a : ¬ lt3 a a.
Proof. unfold lt3. lia. Qed.

Lemma lt3_trans a b c : lt3 a b → lt3 b c → lt3 a c.
Proof. unfold lt3. lia. Qed.

Lemma lt3_le_trans a b c : lt3 a b → ¬ lt3 c b → lt3 a c.
Proof. unfold lt3. lia. Qed.

Lemma le_lt3_trans a b c : ¬ lt3 b a → lt3 b c → lt3 a c.
Proof. unfold lt3. lia. Qed.

Lemma ltb_iff x y : (x <? y) = true ↔ ¬ NaN x ∧ ¬ NaN y ∧ lt3 (rk x) (rk y).
Proof.
  rewrite FloatAxioms.ltb_spec. unfold SFltb, NaN, rk. rewrite SFcompare_rank, <- lex_Lt.
  destruct (is_nan (Prim2SF x)), (is_nan (Prim2SF y)); cbn;
    try destruct (lex _ _); intuition congruence.
Qed.

Lemma leb_iff x y : (x <=? y) = true ↔ ¬ NaN x ∧ ¬ NaN y ∧ ¬ lt3 (rk y) (rk x).
Proof.
  rewrite FloatAxioms.leb_spec. unfold SFleb, NaN, rk. rewrite SFcompare_rank, <- lex_Gt.
  destruct (is_nan (Prim2SF x)), (is_nan (Prim2SF y)); cbn;
    try destruct (lex _ _); intuition congruence.
Qed.

Lemma isNaN_iff x : Js.isNaN x = true ↔ NaN x.
Proof.
  unfold Js.isNaN. rewrite FloatAxioms.eqb_spec. unfold SFeqb, NaN.
  rewrite SFcompare_rank, orb_diag.
  destruct (is_nan (Prim2SF x)); cbn; [tauto |].
  pose proof (lt3_irrefl (rank (Prim2SF x))) as Hirr.
  destruct (lex _ _) eqn:E; cbn; split; try discriminate; try tauto.
  - apply lex_Lt in E. tauto.
  - apply lex_Gt in E. tauto.
Qed.

Lemma ltb_irrefl x : (x <? x) = false.
Proof.
  apply not_true_is_false. rewrite ltb_iff. intros (_ & _ & H).
  exact (lt3_irrefl _ H).
Qed.

Lemma ltb_trans x y z : (x <? y) = true → (y <? z) = true → (x <? z) = true.
Proof. rewrite !ltb_iff. intros (? & ? & ?) (? & ? & ?). eauto using lt3_trans. Qed.

Lemma leb_ltb_trans x y z : (x <=? y) = true → (y <? z) = true → (x <? z) = true.
Proof.
  rewrite !ltb_iff, leb_iff. intros (? & ? & ?) (? & ? & ?).
  eauto using le_lt3_trans.
Qed.

Lemma ltb_leb_trans x y z : (x <? y) = true → (y <=? z) = true → (x <? z) = true.
Proof.
  rewrite !ltb_iff, leb_iff. intros (? & ? & ?) (? & ? & ?).
  eauto using lt3_le_trans.
Qed.

(** Without NaN the order is total. *)
Lemma ltb_false_leb x y :
  Js.isNaN x = false → Js.isNaN y = false → (x <? y) = false → (y <=? x) = true.
Proof.
  intros Hx Hy H. apply leb_iff.
  assert (¬ NaN x) by (rewrite <- isNaN_iff; congruence).
  assert (¬ NaN y) by (rewrite <- isNaN_iff; congruence).
  repeat split; try assumption.
  intros Hlt. assert ((x <? y) = true) by (apply ltb_iff; tauto). congruence.
Qed.

Lemma leb_false_ltb x y :
  Js.isNaN x = false → Js.isNaN y = false → (x <=? y) = false → (y <? x) = true.
Proof.
  intros Hx Hy H. apply ltb_iff.
  assert (¬ NaN x) by (rewrite <- isNaN_iff; congruence).
  assert (¬ NaN y) by (rewrite <- isNaN_iff; congruence).
  repeat split; try assumption.
  destruct (lex (rk y) (rk x)) eqn:E; try (apply lex_Lt; assumption); exfalso;
    assert ((x <=? y) = true)
      by (apply leb_iff; rewrite <- lex_Lt; repeat split; congruence);
    congruence.
Qed.

Lemma lex_Eq a b : lex a b = Eq ↔ eq3 a b.
Proof.
  destruct a as [[a1 a2] a3], b as [[b1 b2] b3]; unfold lex, eq3; cbn.
  destruct (Z.compare_spec a1 b1), (Z.compare_spec a2 b2), (Z.compare_spec a3 b3);
    split; intros; try discriminate; try reflexivity; lia.
Qed.

Lemma eqb_iff x y : (x =? y) = true ↔ ¬ NaN x ∧ ¬ NaN y ∧ eq3 (rk x) (rk y).
Proof.
  rewrite FloatAxioms.eqb_spec. unfold SFeqb, NaN, rk. rewrite SFcompare_rank, <- lex_Eq.
  destruct (is_nan (Prim2SF x)), (is_nan (Prim2SF y)); cbn;
    try destruct (lex _ _); intuition congruence.
Qed.

(** No rank is above that of +Infinity. *)
Lemma rank_infinity f : ¬ lt3 (rank (S754_infinity false)) (rank f).
Proof. destruct f as [[] | [] | | [] m e]; unfold lt3; cbn; lia. Qed.

(** Goals on comparisons of numbers, decided on the ranks. *)
Ltac float_order :=
  rewrite <- ?not_true_iff_false in *;
  rewrite ?ltb_iff, ?leb_iff, ?eqb_iff, ?isNaN_iff in *;
  unfold lt3, eq3 in *; intuition lia.

Lemma leb_refl x : Js.isNaN x = false → (x <=? x) = true.
Proof. intros. float_order. Qed.

Lemma leb_trans x y z : (x <=? y) = true → (y <=? z) = true → (x <=? z) = true.
Proof. intros. float_order. Qed.

Lemma ltb_leb x y : (x <? y) = true → (x <=? y) = true.
Proof. intros. float_order. Qed.

Lemma leb_antisym x y : (x <=? y) = true → (y <=? x) = true → (x =? y) = true.
Proof. intros. float_order. Qed.

Lemma eqb_leb_trans x y z : (x =? y) = true → (y <=? z) = true → (x <=? z) = true.
Proof. intros. float_order. Qed.

Lemma eqb_ltb_trans x y z : (x =? y) = true → (y <? z) = true → (x <? z) = true.
Proof. intros. float_order. Qed.

Lemma eqb_refl x : Js.isNaN x = false → (x =? x) = true.
Proof. intros. float_order. Qed.

Lemma leb_neq_ltb x y : (x <=? y) = true → (y =? x) = false → (x <? y) = true.
Proof. intros. float_order. Qed.

Lemma leb_not_NaN x y :
  (x <=? y) = true → Js.isNaN x = false ∧ Js.isNaN y = false.
Proof. intros. split; float_order. Qed.

Lemma leb_infinity x : Js.isNaN x = false → (x <=? infinity) = true.
Proof.
  intros H. pose proof (rank_infinity (Prim2SF x)) as Hinf.
  assert (¬ NaN infinity) by (unfold NaN; vm_compute; discriminate).
  change (rank (S754_infinity false)) with (rk infinity) in Hinf.
  float_order.
Qed.

(** A number above another is not equal to it, and neither is NaN. *)
Lemma ltb_neq x y :
  (x <? y) = true → (y =? x) = false ∧ Js.isNaN x = false ∧ Js.isNaN y = false.
Proof.
  intros H. apply ltb_iff in H as (Hx & Hy & Hlt).
  rewrite <- isNaN_iff in Hx, Hy.
  repeat split; try (by apply not_true_is_false).
  rewrite FloatAxioms.eqb_spec. unfold SFeqb. rewrite SFcompare_rank.
  apply lex_Gt in Hlt. fold (rk y) (rk x). rewrite Hlt.
  by destruct (_ || _)%bool.
Qed.

End FloatOrder.

(** ** The scan for the nearest point *)

Arguments calculateDistance : simpl never.

Section ScanFacts.

Variables Math_sin Math_cos : Js.number → Js.number.
Variable Math_atan2 : Js.number → Js.number → Js.number.

Local Abbreviation dist := (calculateDistance Math_sin Math_cos Math_atan2).
Local Abbreviation scan_from := (scan_from Math_sin Math_cos Math_atan2).
Local Abbreviation scan := (scan Math_sin Math_cos Math_atan2).

(** What the scan has established once it has seen the points [seen]: its
    point is one of them, none is strictly nearer, and none before it is as
    near. *)
Record scan_inv (current : RouteWaypoint) (seen : list RouteWaypoint) (st : Scan) : Prop := {
  inv_lookup : seen !! nearestIndex st = Some (nearest st);
  inv_dist : minDistance st = dist current (nearest st);
  inv_min : ∀ j q, seen !! j = Some q → (dist current q <? minDistance st) = false;
  inv_first : ∀ j q, (j < nearestIndex st)%nat → seen !! j = Some q →
                     (dist current q <=? minDistance st) = false
}.

Lemma scan_inv_step current seen st p :
  scan_inv current seen st →
  scan_inv current (seen ++ [p])
    (if dist current p <? minDistance st
     then {| minDistance := dist current p; nearest := p; nearestIndex := length seen |}
     else st).
Proof.
  intros [Hl Hd Hmin Hfirst].
  destruct (dist current p <? minDistance st) eqn:Hlt.
  - split; cbn.
    + by rewrite lookup_app_r, Nat.sub_diag.
    + reflexivity.
    + intros j q Hq. apply lookup_app_Some in Hq as [Hq | [_ Hq]].
      * apply not_true_is_false. intros H.
        pose proof (FloatOrder.ltb_trans _ _ _ H Hlt) as H'.
        rewrite (Hmin j q Hq) in H'. discriminate.
      * destruct (j - length seen)%nat; [| by destruct n].
        injection Hq as <-. apply FloatOrder.ltb_irrefl.
    + intros j q Hj Hq. rewrite lookup_app_l in Hq by assumption.
      apply not_true_is_false. intros H.
      pose proof (FloatOrder.leb_ltb_trans _ _ _ H Hlt) as H'.
      rewrite (Hmin j q Hq) in H'. discriminate.
  - assert (nearestIndex st < length seen)%nat by (eapply lookup_lt_Some; eassumption).
    split.
    + by rewrite lookup_app_l.
    + assumption.
    + intros j q Hq. apply lookup_app_Some in Hq as [Hq | [_ Hq]]; [eauto |].
      destruct (j - length seen)%nat; [| by destruct n].
      by injection Hq as <-.
    + intros j q Hj Hq. rewrite lookup_app_l in Hq by lia. eauto.
Qed.

Lemma scan_from_inv current rest : ∀ seen st,
  scan_inv current seen st →
  scan_inv current (seen ++ rest) (scan_from current (length seen) rest st).
Proof.
  induction rest as [| p rest IH]; intros seen st Hinv; cbn.
  - by rewrite app_nil_r.
  - apply (scan_inv_step _ _ _ p) in Hinv.
    apply IH in Hinv. rewrite length_app in Hinv; cbn in Hinv.
    rewrite Nat.add_1_r in Hinv. by rewrite <- app_assoc in Hinv.
Qed.

Lemma scan_spec current first others :
  scan_inv current (first :: others) (scan current first others).
Proof.
  apply (scan_from_inv current others [first]).
  split; cbn; try reflexivity.
  - intros [| j] q Hq; [| done]. injection Hq as <-. apply FloatOrder.ltb_irrefl.
  - intros j q Hj. lia.
Qed.

End ScanFacts.

(** ** The tour planner ([solveTSP]) *)

Section TourFacts.

Variables Math_sin Math_cos : Js.number → Js.number.
Variable Math_atan2 : Js.number → Js.number → Js.number.

Local Abbreviation dist := (calculateDistance Math_sin Math_cos Math_atan2).
Local Abbreviation scan := (scan Math_sin Math_cos Math_atan2).
Local Abbreviation solveTSP_loop := (solveTSP_loop Math_sin Math_cos Math_atan2).
Local Abbreviation solveTSP := (solveTSP Math_sin Math_cos Math_atan2).
Local Abbreviation greedy_tour := (greedy_tour dist).

Lemma solveTSP_loop_spec fuel : ∀ unvisited result current,
  (length unvisited ≤ fuel)%nat →
  ∃ tour, solveTSP_loop fuel unvisited result current = Some (result ++ tour) ∧
          unvisited ≡ₚ tour ∧ greedy_tour current unvisited tour.
Proof.
  induction fuel as [| fuel IH]; intros [| first others] result current Hlen;
    cbn in Hlen; try lia.
  - exists []. rewrite app_nil_r. repeat split; constructor.
  - exists []. rewrite app_nil_r. repeat split; constructor.
  - destruct (scan_spec Math_sin Math_cos Math_atan2 current first others)
      as [Hlookup Hdist Hmin Hfirst].
    set (st := scan current first others) in *.
    assert (length (delete (nearestIndex st) (first :: others)) ≤ fuel)%nat as Hlen'.
    { rewrite length_delete by eauto. cbn. lia. }
    destruct (IH _ (result ++ [nearest st]) (nearest st) Hlen') as (tour & Hloop & Hperm & Hgreedy).
    exists (nearest st :: tour). split; [| split].
    + change (solveTSP_loop (S fuel) (first :: others) result current)
        with (solveTSP_loop fuel (delete (nearestIndex st) (first :: others))
                (result ++ [nearest st]) (nearest st)).
      rewrite Hloop, <- app_assoc. reflexivity.
    + rewrite <- Hperm. by apply delete_Permutation.
    + rewrite Hdist in Hmin, Hfirst. econstructor; try eassumption.
      intros Hnan. rewrite Forall_lookup in Hnan. apply Forall_lookup. intros j q Hq.
      apply FloatOrder.ltb_false_leb; eauto.
Qed.

(** C6. For every origin and every list of stops, [solveTSP] returns, and what
    it returns is a permutation of the stops it was given: the same stops
    with the same multiplicities, none added, none left out. *)
Theorem solveTSP_permutation (origin : RouteWaypoint) (points : list RouteWaypoint) :
  ∃ tour, solveTSP origin points = Some tour ∧ points ≡ₚ tour ∧
          length tour = length points.
Proof.
  destruct (solveTSP_loop_spec (length points) points [] origin (le_n _))
    as (tour & Hloop & Hperm & _).
  exists tour. repeat split; try assumption.
  by rewrite Hperm.
Qed.

(** C7. [solveTSP] returns a tour built by the nearest-neighbour rule: at
    every step the stop appended is a remaining stop than which none is
    strictly nearer to the current position (one of minimum distance, when
    the distances are numbers), the first such stop in input order, and the
    position advances to it.  With two stops the nearer one to the origin
    comes first, the first of the input on a tie. *)
Theorem solveTSP_greedy (origin : RouteWaypoint) (points : list RouteWaypoint) :
  (∃ tour, solveTSP origin points = Some tour ∧ greedy_tour origin points tour) ∧
  (∀ a b, solveTSP origin [a; b] =
          Some (if dist origin b <? dist origin a then [b; a] else [a; b])).
Proof.
  split.
  - destruct (solveTSP_loop_spec (length points) points [] origin (le_n _))
      as (tour & Hloop & _ & Hgreedy).
    by exists tour.
  - intros a b. unfold solveTSP. cbn.
    by destruct (dist origin b <? dist origin a).
Qed.

End TourFacts.

(** ** The cost model and the fallback route *)

Section CostFacts.

Variables Math_sin Math_cos : Js.number → Js.number.
Variable Math_atan2 : Js.number → Js.number → Js.number.

Local Abbreviation dist := (calculateDistance Math_sin Math_cos Math_atan2).
Local Abbreviation pathDistance := (pathDistance Math_sin Math_cos Math_atan2).
Local Abbreviation estimateTollCost := (estimateTollCost Math_sin Math_cos Math_atan2).
Local Abbreviation getBasicRoute := (getBasicRoute Math_sin Math_cos Math_atan2).
Local Abbreviation addSegment := (addSegment Math_sin Math_cos Math_atan2).

Lemma reduce_from_segments path : ∀ rest seen prev total,
  path = seen ++ prev :: rest →
  reduce_from (addSegment path) (S (length seen)) total rest =
  sumFrom total (consecutiveDistances dist (prev :: rest)).
Proof.
  induction rest as [| p rest IH]; intros seen prev total Hpath; [reflexivity |].
  cbn [reduce_from addSegment].
  replace (S (length seen)) with (length (seen ++ [prev]))
    by (rewrite length_app; cbn; lia).
  rewrite (IH (seen ++ [prev]) p) by (by rewrite <- app_assoc).
  rewrite Hpath, lookup_app_r, Nat.sub_diag by lia. reflexivity.
Qed.

Lemma pathDistance_sum path :
  pathDistance path = sumFrom 0 (consecutiveDistances dist path).
Proof.
  destruct path as [| first rest]; [reflexivity |].
  exact (reduce_from_segments (first :: rest) rest [] first 0 eq_refl).
Qed.

(** C5. [estimateTollCost] sums the distances between consecutive points of
    the path, and the toll is 0 when that total is at most 50 km and 0.02
    times the total when it is beyond.  A total of 49 km costs 0 and a total
    of 51 km costs 1.02 (to within 1e-12). *)
Theorem estimateTollCost_threshold (path : list RouteWaypoint) :
  pathDistance path = sumFrom 0 (consecutiveDistances dist path) ∧
  ((pathDistance path <=? 50) = true → estimateTollCost path = 0) ∧
  ((50 <? pathDistance path) = true → estimateTollCost path = pathDistance path * 0.02) ∧
  (Js.isNaN (pathDistance path) = false →
   estimateTollCost path = tollFor (pathDistance path)) ∧
  (pathDistance path = 49 → estimateTollCost path = 0) ∧
  (pathDistance path = 51 → (abs (estimateTollCost path - 1.02) <? 1e-12) = true).
Proof.
  split; [apply pathDistance_sum |].
  unfold estimateTollCost, tollFor.
  generalize (pathDistance path). intros total. repeat split.
  - intros Hle. destruct (50 <? total) eqn:Hlt; [| reflexivity].
    pose proof (FloatOrder.ltb_leb_trans _ _ _ Hlt Hle) as H.
    by rewrite FloatOrder.ltb_irrefl in H.
  - by intros ->.
  - intros Hnan. destruct (total <=? 50) eqn:Hle.
    + destruct (50 <? total) eqn:Hlt; [| reflexivity].
      pose proof (FloatOrder.ltb_leb_trans _ _ _ Hlt Hle) as H.
      by rewrite FloatOrder.ltb_irrefl in H.
    + by rewrite (FloatOrder.leb_false_ltb total 50 Hnan eq_refl Hle).
  - by intros ->.
  - by intros ->.
Qed.

(** C4. The fallback route of a request is the origin, the waypoints in the
    order given and the destination; its total distance is the distance from
    the origin to the destination, whatever the waypoints, and its duration in
    minutes is that distance at 50 km/h. *)
Theorem getBasicRoute_shape (request : RouteOptimizationRequest) (w : World) :
  ∃ route,
    getBasicRoute request w = (inr route, w) ∧
    path route = origin request :: default [] (waypoints request) ++ [destination request] ∧
    routeWaypoints route = default [] (waypoints request) ∧
    totalDistance route = dist (origin request) (destination request) ∧
    estimatedDuration route = (totalDistance route / 50) * 60 ∧
    ∀ wps w', ∃ route',
      getBasicRoute (set_waypoints request wps) w' = (inr route', w') ∧
      totalDistance route' = totalDistance route ∧
      estimatedDuration route' = estimatedDuration route.
Proof.
  eexists. split; [reflexivity |]. cbn. repeat split.
  intros wps w'. eexists. split; [reflexivity |]. cbn. split; reflexivity.
Qed.

End CostFacts.

(** ** Route computation ([calculateOptimalRoute]) *)

Section RouteFacts.

Variables Math_sin Math_cos : Js.number → Js.number.
Variable Math_atan2 : Js.number → Js.number → Js.number.

Local Abbreviation calculateOptimalRoute :=
  (calculateOptimalRoute Math_sin Math_cos Math_atan2).
Local Abbreviation fallbackRoute := (fallbackRoute Math_sin Math_cos Math_atan2).

Lemma calculateOptimalRoute_fallback config request w :
  configured (googleMapsApiKey config) = false →
  configured (mapboxToken config) = false →
  calculateOptimalRoute config request w = (inr (fallbackRoute request), w).
Proof.
  intros Hg Hm. unfold calculateOptimalRoute, getExternalRoute.
  rewrite Hg, Hm. reflexivity.
Qed.

(** C10. With no external provider configured, [calculateOptimalRoute] returns
    the same route for the same request in whatever state the world is (the
    store, the clock, the random values to come, the network), and leaves that
    state as it was: two calls with identical input return identical
    routes. *)
Theorem calculateOptimalRoute_deterministic config request (w1 w2 : World) :
  configured (googleMapsApiKey config) = false →
  configured (mapboxToken config) = false →
  ∃ route,
    calculateOptimalRoute config request w1 = (inr route, w1) ∧
    calculateOptimalRoute config request w2 = (inr route, w2).
Proof.
  intros Hg Hm. exists (fallbackRoute request).
  split; by apply calculateOptimalRoute_fallback.
Qed.

(** C8, as the code has it.  In the fallback variant the path of the computed
    route starts with the origin of the request, ends with its destination and
    has two points more than the request has waypoints.  In a provider variant
    a computed route has the path parsed from the first route of the
    provider's answer, the start location of every step of every leg (Google
    Maps) or the coordinates of the geometry (Mapbox): the origin and the
    destination of the request are not put into it. *)
Theorem calculateOptimalRoute_path config request (w : World) :
  if configured (googleMapsApiKey config) then
    match network w with
    | GoogleDirections (legs :: _) :: _ =>
        ∃ route w', calculateOptimalRoute config request w = (inr route, w') ∧
                    path route = parseGoogleMapsPath legs
    | _ => ∃ w', calculateOptimalRoute config request w =
                 (inl (createError "Failed to calculate optimal route" 500), w')
    end
  else if configured (mapboxToken config) then
    match network w with
    | MapboxDirections (found :: _) :: _ =>
        ∃ route w', calculateOptimalRoute config request w = (inr route, w') ∧
                    path route = parseMapboxPath (coordinates found)
    | _ => ∃ w', calculateOptimalRoute config request w =
                 (inl (createError "Failed to calculate optimal route" 500), w')
    end
  else
    ∃ route,
      calculateOptimalRoute config request w = (inr route, w) ∧
      head (path route) = Some (origin request) ∧
      last (path route) = Some (destination request) ∧
      length (path route) = (length (default [] (waypoints request)) + 2)%nat.
Proof.
  destruct (configured (googleMapsApiKey config)) eqn:Hg;
    [| destruct (configured (mapboxToken config)) eqn:Hm].
  - unfold calculateOptimalRoute, getExternalRoute. rewrite Hg.
    unfold try_catch, bind, getGoogleMapsRoute, try_catch, bind, axios_get, throw, ret.
    destruct (network w) as [| [| [| legs others] | found] rest]; eauto.
  - unfold calculateOptimalRoute, getExternalRoute. rewrite Hg, Hm.
    unfold try_catch, bind, getMapboxRoute, try_catch, bind, axios_get, throw, ret.
    destruct (network w) as [| [| legs | [| found others]] rest]; eauto.
  - exists (fallbackRoute request).
    split; [by apply calculateOptimalRoute_fallback |].
    unfold fallbackRoute. cbn [path]. repeat split.
    + by rewrite app_comm_cons, last_snoc.
    + cbn. rewrite length_app. cbn. lia.
Qed.

End RouteFacts.

(** ** Status updates ([updateRouteStatus]) *)

(** A whole number of 32 bits is kept as it is. *)
Lemma toInt_isInt (x : Js.number) : isInt x = true → toInt x = Some x.
Proof.
  unfold isInt, toInt. intros H.
  apply andb_prop in H as [H Hhigh]. apply andb_prop in H as [-> Hlow].
  cbv zeta. by rewrite Hlow, Hhigh.
Qed.

Lemma updateRouteStatus_found (w : World) id r status' duration :
  routes w !! id = Some r →
  updateRouteStatus id status' duration w =
  match prisma.written (updateData status' (clock w) duration) r with
  | Some row => (inr row, set_routes (insert id row) w)
  | None => (inl (createError "Failed to update route status" 500), w)
  end.
Proof.
  intros H. unfold updateRouteStatus, try_catch, bind, now, prisma.route_update, ret.
  rewrite H. by destruct (prisma.written _ r).
Qed.

(** The row after a status update whose duration, if one is written, is kept
    as it is. *)
Lemma written_updateData status' date duration (r : Route) :
  (∀ d, duration = Some d → Js.truthy d = true → isInt d = true) →
  ∃ row, prisma.written (updateData status' date duration) r = Some row ∧
         status row = status' ∧
         updatedAt row = date ∧
         actualDuration row =
           match duration with
           | Some d => if Js.truthy d then Some d else actualDuration r
           | None => actualDuration r
           end ∧
         routeId row = routeId r ∧ orderId row = orderId r ∧
         transporterId row = transporterId r ∧
         optimizedPath row = optimizedPath r ∧
         routeEstimatedDuration row = routeEstimatedDuration r ∧
         distance row = distance r ∧ createdAt row = createdAt r.
Proof.
  intros Hint. unfold prisma.written, updateData. cbn.
  destruct duration as [d |]; [| eexists; split; [reflexivity | by repeat split]].
  destruct (Js.truthy d) eqn:Htruthy; [| eexists; split; [reflexivity | by repeat split]].
  rewrite (toInt_isInt d) by (by apply Hint). cbn.
  eexists. split; [reflexivity | by repeat split].
Qed.

(** Whatever fails in [updateRouteStatus], its error is the one of its
    [catch], and nothing has been written. *)
Lemma updateRouteStatus_failure (w w' : World) id status' duration e :
  updateRouteStatus id status' duration w = (inl e, w') →
  e = createError "Failed to update route status" 500 ∧ w' = w.
Proof.
  unfold updateRouteStatus, try_catch, bind, now, prisma.route_update, throw, ret.
  destruct (routes w !! id) as [r |]; [| by intros [= <- <-]].
  destruct (prisma.written _ r); [discriminate | by intros [= <- <-]].
Qed.

Lemma updateRouteStatus_missing (w : World) id status' duration :
  routes w !! id = None →
  updateRouteStatus id status' duration w =
  (inl (createError "Failed to update route status" 500), w).
Proof.
  intros H. unfold updateRouteStatus, try_catch, bind, now, prisma.route_update, throw.
  by rewrite H.
Qed.

(** C1, as the code has it.  [updateRouteStatus] validates no transition: on
    a persisted route, whatever its status ([COMPLETED] and [CANCELLED]
    included), an update to any status, given without a duration or with one
    that is a whole number of minutes within the [Int] column, succeeds and
    stores that status, so [PLANNED] to [CANCELLED] succeeds and so does every
    transition out of [COMPLETED] or [CANCELLED].  No failure is an invalid
    transition: whenever the call fails (as it does when no route has the
    id), its error is "Failed to update route status" (500) and the store is
    unchanged. *)
Theorem updateRouteStatus_any_transition (w : World) (id : string)
    (status' : RouteStatus) (duration : option Js.number) :
  (∀ r, routes w !! id = Some r →
        (∀ d, duration = Some d → isInt d = true) →
        ∃ r', updateRouteStatus id status' duration w =
                (inr r', set_routes (insert id r') w) ∧
              status r' = status' ∧
              routes (set_routes (insert id r') w) !! id = Some r') ∧
  (routes w !! id = None →
   updateRouteStatus id status' duration w =
   (inl (createError "Failed to update route status" 500), w)) ∧
  (∀ e w', updateRouteStatus id status' duration w = (inl e, w') →
           e = createError "Failed to update route status" 500 ∧ w' = w).
Proof.
  split; [| split].
  - intros r H Hint.
    destruct (written_updateData status' (clock w) duration r)
      as (row & Hrow & Hstatus & _); [by eauto |].
    exists row. rewrite (updateRouteStatus_found _ _ _ _ _ H), Hrow.
    split; [reflexivity |]. split; [exact Hstatus |].
    cbn. apply lookup_insert_eq.
  - by apply updateRouteStatus_missing.
  - intros e w'. by apply updateRouteStatus_failure.
Qed.

(** C9, as the code has it.  On a persisted route, a provided actual duration
    that is a whole number of minutes within the [Int] column is recorded when
    it is truthy, which every positive number is; a provided 0 is taken as not
    provided, and the stored actual duration stays what it was. *)
Theorem updateRouteStatus_actualDuration (w : World) (id : string) (r : Route)
    (status' : RouteStatus) (d : Js.number) :
  routes w !! id = Some r →
  isInt d = true →
  ∃ r', updateRouteStatus id status' (Some d) w = (inr r', set_routes (insert id r') w) ∧
        routes (set_routes (insert id r') w) !! id = Some r' ∧
        actualDuration r' = (if Js.truthy d then Some d else actualDuration r) ∧
        ((0 <? d) = true → actualDuration r' = Some d) ∧
        ((d =? 0) = true → actualDuration r' = actualDuration r).
Proof.
  intros H Hint.
  destruct (written_updateData status' (clock w) (Some d) r)
    as (row & Hrow & _ & _ & Hduration & _); [by intros ? [= <-] |].
  exists row. rewrite (updateRouteStatus_found _ _ _ _ _ H), Hrow.
  split; [reflexivity |]. split; [cbn; apply lookup_insert_eq |].
  split; [exact Hduration |]. rewrite Hduration. unfold Js.truthy. split.
  - intros Hpos. apply FloatOrder.ltb_neq in Hpos as (-> & _ & ->). reflexivity.
  - by intros ->.
Qed.

(** ** Recalculation ([recalculateRoute]) *)

Section RecalculateFacts.

Variables Math_sin Math_cos : Js.number → Js.number.
Variable Math_atan2 : Js.number → Js.number → Js.number.
Variable config : Config.

Local Abbreviation dist := (calculateDistance Math_sin Math_cos Math_atan2).
Local Abbreviation scan_from := (scan_from Math_sin Math_cos Math_atan2).
Local Abbreviation scan := (scan Math_sin Math_cos Math_atan2).
Local Abbreviation closest_from := (closest_from Math_sin Math_cos Math_atan2).
Local Abbreviation getRemainingWaypoints :=
  (getRemainingWaypoints Math_sin Math_cos Math_atan2).
Local Abbreviation recalculateRoute_try :=
  (recalculateRoute_try Math_sin Math_cos Math_atan2 config).
Local Abbreviation recalculateRoute :=
  (recalculateRoute Math_sin Math_cos Math_atan2 config).

(** The loop of [getRemainingWaypoints] is the scan of [solveTSP] without its
    variable [nearest]. *)
Lemma closest_from_scan current rest : ∀ i st,
  closest_from current i rest (minDistance st, nearestIndex st) =
  (minDistance (scan_from current i rest st), nearestIndex (scan_from current i rest st)).
Proof.
  induction rest as [| p rest IH]; intros i st; [reflexivity |].
  cbn. destruct (dist current p <? minDistance st).
  - exact (IH (S i) {| minDistance := dist current p; nearest := p; nearestIndex := i |}).
  - exact (IH (S i) st).
Qed.

Lemma getRemainingWaypoints_scan currentLocation first others :
  getRemainingWaypoints (first :: others) currentLocation =
  inr (drop (nearestIndex (scan currentLocation first others) + 1) (first :: others)).
Proof.
  unfold getRemainingWaypoints, scan.
  pose proof (closest_from_scan currentLocation others 1
                {| minDistance := dist currentLocation first; nearest := first;
                   nearestIndex := 0 |}) as H.
  cbn [minDistance nearestIndex] in H. rewrite H. reflexivity.
Qed.

(** When the final point of the path is strictly nearer to the current
    location than every point before it, no waypoint remains. *)
Lemma getRemainingWaypoints_final path currentLocation final :
  last path = Some final →
  (∀ j q, (j < length path - 1)%nat → path !! j = Some q →
          (dist currentLocation final <? dist currentLocation q) = true) →
  getRemainingWaypoints path currentLocation = inr [].
Proof.
  intros Hlast Hnear. destruct path as [| first others]; [discriminate |].
  rewrite getRemainingWaypoints_scan.
  destruct (scan_spec Math_sin Math_cos Math_atan2 currentLocation first others)
    as [Hlookup Hdist Hmin _].
  set (st := scan currentLocation first others) in *.
  pose proof (lookup_lt_Some _ _ _ Hlookup) as Hlt.
  rewrite last_lookup in Hlast.
  destruct (decide (nearestIndex st < length (first :: others) - 1)%nat) as [Hk | Hk].
  - specialize (Hnear _ _ Hk Hlookup). rewrite <- Hdist in Hnear.
    rewrite (Hmin _ _ Hlast) in Hnear. discriminate.
  - rewrite drop_ge by lia. reflexivity.
Qed.

(** X3. The remaining waypoints of a path that has points are the points
    strictly after the closest one: the first point of the path than which
    none is strictly nearer to the current location. *)
Theorem getRemainingWaypoints_after_closest (first : RouteWaypoint)
    (others : list RouteWaypoint) (currentLocation : RouteWaypoint) :
  ∃ k closest,
    (first :: others) !! k = Some closest ∧
    (∀ j q, (first :: others) !! j = Some q →
            (dist currentLocation q <? dist currentLocation closest) = false) ∧
    (∀ j q, (j < k)%nat → (first :: others) !! j = Some q →
            (dist currentLocation q <=? dist currentLocation closest) = false) ∧
    getRemainingWaypoints (first :: others) currentLocation =
      inr (drop (k + 1) (first :: others)).
Proof.
  destruct (scan_spec Math_sin Math_cos Math_atan2 currentLocation first others)
    as [Hlookup Hdist Hmin Hfirst].
  rewrite Hdist in Hmin, Hfirst.
  eexists _, _. repeat split; try eassumption.
  apply getRemainingWaypoints_scan.
Qed.

(** C3, on the code.  When the closest point of the stored path is its final
    point, the [try] block of [recalculateRoute] throws "Route already
    completed" (400), and the [catch] of [recalculateRoute] replaces it: what
    the caller receives is "Failed to recalculate route" (500).  The store is
    unchanged. *)
Theorem recalculateRoute_at_final_point (w : World) (id : string) (r : Route)
    (t : Transporter) (currentLocation final : RouteWaypoint) :
  routes w !! id = Some r →
  transporters w !! transporterId r = Some t →
  last (optimizedPath r) = Some final →
  (∀ j q, (j < length (optimizedPath r) - 1)%nat → optimizedPath r !! j = Some q →
          (dist currentLocation final <? dist currentLocation q) = true) →
  recalculateRoute_try id currentLocation w =
    (inl (createError "Route already completed" 400), w) ∧
  recalculateRoute id currentLocation w =
    (inl (createError "Failed to recalculate route" 500), w).
Proof.
  intros Hr Ht Hlast Hnear.
  pose proof (getRemainingWaypoints_final _ _ _ Hlast Hnear) as Hrem.
  assert (recalculateRoute_try id currentLocation w =
          (inl (createError "Route already completed" 400), w)) as Htry.
  { unfold recalculateRoute_try, bind, getRouteById,
      try_catch, bind, prisma.route_findUnique, lift.
    rewrite Hr, Ht. cbn. rewrite Hrem. reflexivity. }
  split; [assumption |].
  unfold recalculateRoute, try_catch.
  fold recalculateRoute_try. rewrite Htry. reflexivity.
Qed.

End RecalculateFacts.

(** ** [Math.min] and [indexOf] on numbers *)

Lemma min2_spec x y :
  Js.isNaN x = false → Js.isNaN y = false →
  (Js.min2 x y = x ∨ Js.min2 x y = y) ∧
  (Js.min2 x y <=? x) = true ∧ (Js.min2 x y <=? y) = true.
Proof.
  intros Hx Hy. unfold Js.min2. rewrite Hx, Hy.
  pose proof (FloatOrder.leb_refl x Hx). pose proof (FloatOrder.leb_refl y Hy).
  destruct (y <? x) eqn:Hyx; [auto using FloatOrder.ltb_leb |].
  destruct (x <? y) eqn:Hxy; [auto using FloatOrder.ltb_leb |].
  pose proof (FloatOrder.ltb_false_leb _ _ Hy Hx Hyx).
  pose proof (FloatOrder.ltb_false_leb _ _ Hx Hy Hxy).
  destruct (1 / y <? 0); auto.
Qed.

(** The fold of [Math.min] from [a] over numbers that are not NaN: one of
    them (or [a]), and at most each of them. *)
Lemma min_from_spec ds : ∀ a,
  Js.isNaN a = false → Forall (λ d, Js.isNaN d = false) ds →
  (foldl Js.min2 a ds = a ∨ foldl Js.min2 a ds ∈ ds) ∧
  (foldl Js.min2 a ds <=? a) = true ∧
  Forall (λ d, (foldl Js.min2 a ds <=? d) = true) ds.
Proof.
  induction ds as [| d ds IH]; intros a Ha Hds; cbn.
  - repeat split; auto using FloatOrder.leb_refl.
  - apply Forall_cons in Hds as [Hd Hds].
    destruct (min2_spec a d Ha Hd) as (Hsel & Hle_a & Hle_d).
    assert (Js.isNaN (Js.min2 a d) = false) as Hm by (by destruct Hsel as [-> | ->]).
    destruct (IH _ Hm Hds) as (Hsel' & Hle & Hall).
    split; [| split].
    + destruct Hsel' as [Hsel' | Hin]; [| right; by right].
      rewrite Hsel'. destruct Hsel as [Hsel | Hsel]; rewrite Hsel.
      * by left.
      * right. by left.
    + exact (FloatOrder.leb_trans _ _ _ Hle Hle_a).
    + constructor; [exact (FloatOrder.leb_trans _ _ _ Hle Hle_d) | exact Hall].
Qed.

Lemma indexOf_from_spec ds v : ∀ i,
  (∃ d, d ∈ ds ∧ (d =? v) = true) →
  ∃ k dk, Js.indexOf_from i ds v = (i + Z.of_nat k)%Z ∧
          ds !! k = Some dk ∧ (dk =? v) = true ∧
          ∀ j dj, (j < k)%nat → ds !! j = Some dj → (dj =? v) = false.
Proof.
  induction ds as [| d ds IH]; intros i (d' & Hin & Heq).
  - by apply elem_of_nil in Hin.
  - cbn. destruct (d =? v) eqn:Hd.
    + exists 0%nat, d. repeat split; try done; [lia | intros; lia].
    + apply elem_of_cons in Hin as [-> | Hin]; [congruence |].
      destruct (IH (i + 1)%Z (ex_intro _ d' (conj Hin Heq))) as (k & dk & Hidx & Hk & Hdk & Hfirst).
      exists (S k), dk. repeat split; try done; [lia |].
      intros [| j] dj Hj Hdj; [by injection Hdj as <- |].
      apply (Hfirst j); [lia | done].
Qed.

(** Over numbers none of which is NaN, [xs.indexOf(Math.min(...xs))] is the
    first index of a least element. *)
Lemma indexOf_min ds :
  ds ≠ [] → Forall (λ d, Js.isNaN d = false) ds →
  ∃ k dk, Js.indexOf ds (Js.min ds) = Z.of_nat k ∧ ds !! k = Some dk ∧
          (∀ j dj, ds !! j = Some dj → (dk <=? dj) = true) ∧
          (∀ j dj, (j < k)%nat → ds !! j = Some dj → (dk <? dj) = true).
Proof.
  intros Hne Hds. unfold Js.min, Js.indexOf.
  destruct (min_from_spec ds infinity eq_refl Hds) as (Hsel & _ & Hall).
  set (m := foldl Js.min2 infinity ds) in *.
  rewrite Forall_lookup in Hall.
  assert (∃ d, d ∈ ds ∧ (d =? m) = true) as Hex.
  { destruct Hsel as [Hm | Hin].
    - destruct ds as [| d ds]; [done |]. exists d. split; [by left |].
      rewrite Forall_cons in Hds. destruct Hds as [Hd _].
      apply FloatOrder.leb_antisym; [| apply (Hall 0%nat d eq_refl)].
      rewrite Hm. by apply FloatOrder.leb_infinity.
    - exists m. split; [done |]. apply FloatOrder.eqb_refl.
      rewrite Forall_forall in Hds. by apply Hds. }
  destruct (indexOf_from_spec ds m 0%Z Hex) as (k & dk & Hidx & Hk & Hdk & Hfirst).
  exists k, dk. repeat split; try done.
  - intros j dj Hj. eapply FloatOrder.eqb_leb_trans; eauto.
  - intros j dj Hlt Hj.
    pose proof (Hall j dj Hj) as Hle. pose proof (Hfirst j dj Hlt Hj) as Hne'.
    eapply FloatOrder.eqb_ltb_trans; [eassumption |].
    by apply FloatOrder.leb_neq_ltb.
Qed.

(** ** Progress ([GET /:id/tracking]) *)

Section ProgressFacts.

Variables Math_sin Math_cos : Js.number → Js.number.
Variable Math_atan2 : Js.number → Js.number → Js.number.

Local Abbreviation calculateProgress := (calculateProgress Math_sin Math_cos Math_atan2).
Local Abbreviation trackingDistance := (trackingDistance Math_sin Math_cos Math_atan2).
Local Abbreviation getTracking := (getTracking Math_sin Math_cos Math_atan2).

(** C2, on the code.  For a path of exactly one point and a tracked location,
    the handler divides the index by [routePath.length - 1 = 0]: the progress
    is NaN (index 0) or -Infinity (index -1, when the distance is NaN), never
    100. *)
Theorem calculateProgress_single_point (currentLocation : TrackingData) (p : RouteWaypoint) :
  (calculateProgress (Some currentLocation) [p] = nan ∨
   calculateProgress (Some currentLocation) [p] = neg_infinity) ∧
  (calculateProgress (Some currentLocation) [p] =? 100) = false.
Proof.
  unfold calculateProgress. cbn [length Nat.ltb Nat.leb map].
  unfold Js.indexOf. cbn [Js.indexOf_from].
  generalize (trackingDistance currentLocation p). intros d.
  destruct (d =? Js.min [d]); vm_compute; auto.
Qed.

(** X1. For a path with points and a tracked location whose distances to them
    are numbers, the progress is [Math.round(index / (length - 1) * 100)] at
    the index of the closest point of the path, the first one on a tie. *)
Theorem calculateProgress_closest (currentLocation : TrackingData)
    (routePath : list RouteWaypoint) :
  routePath ≠ [] →
  Forall (λ p, Js.isNaN (trackingDistance currentLocation p) = false) routePath →
  ∃ k closest,
    routePath !! k = Some closest ∧
    (∀ j q, routePath !! j = Some q →
            (trackingDistance currentLocation closest <=? trackingDistance currentLocation q)
            = true) ∧
    (∀ j q, (j < k)%nat → routePath !! j = Some q →
            (trackingDistance currentLocation closest <? trackingDistance currentLocation q)
            = true) ∧
    calculateProgress (Some currentLocation) routePath =
      Js.round ((Js.of_nat k / Js.of_Z (Z.of_nat (length routePath) - 1)) * 100).
Proof.
  intros Hne Hnan.
  destruct (indexOf_min (map (trackingDistance currentLocation) routePath))
    as (k & dk & Hidx & Hk & Hmin & Hfirst).
  { by destruct routePath. }
  { by apply Forall_fmap. }
  rewrite list_lookup_fmap in Hk.
  destruct (routePath !! k) as [closest |] eqn:Hclosest; [| discriminate].
  injection Hk as <-.
  exists k, closest. repeat split; try done.
  - intros j q Hq. apply (Hmin j). by rewrite list_lookup_fmap, Hq.
  - intros j q Hj Hq. apply (Hfirst j); [done |]. by rewrite list_lookup_fmap, Hq.
  - unfold calculateProgress. destruct routePath; [done |].
    cbn [length Nat.ltb Nat.leb]. cbv zeta. by rewrite Hidx.
Qed.

(** X2. The body that the handler answers with, for a persisted route: the
    progress of the latest tracked location of its transporter and order on
    its path, 0 when there is none, and the estimated duration scaled by what
    is left of the progress. *)
Theorem getTracking_response (w : World) (id : string) (r : Route) (t : Transporter) :
  routes w !! id = Some r →
  transporters w !! transporterId r = Some t →
  ∃ response,
    getTracking id w = (inr response, w) ∧
    responseRoute response = r ∧
    responseLocation response =
      prisma.latest (filter (λ d, trackingTransporterId d = transporterId r ∧
                                  trackingOrderId d = Some (orderId r)) (trackingData w)) ∧
    (responseLocation response = None → progress response = 0) ∧
    progress response = calculateProgress (responseLocation response) (optimizedPath r) ∧
    estimatedTimeRemaining response =
      routeEstimatedDuration r * (1 - progress response / 100).
Proof.
  intros Hr Ht. eexists. split.
  - unfold getTracking, bind, getRouteById, try_catch, bind,
      prisma.route_findUnique, prisma.trackingData_findLatest, ret.
    rewrite Hr, Ht. reflexivity.
  - cbn. destruct (prisma.latest _); cbn; repeat split; discriminate.
Qed.

End ProgressFacts.

(** * The service on concrete inputs *)

Local Abbreviation rsolveTSP := (solveTSP Reference.sin Reference.cos Reference.atan2).
Local Abbreviation rcalculateOptimalRoute :=
  (calculateOptimalRoute Reference.sin Reference.cos Reference.atan2).
Local Abbreviation rgetTracking := (getTracking Reference.sin Reference.cos Reference.atan2).
Local Abbreviation rrecalculateRoute :=
  (recalculateRoute Reference.sin Reference.cos Reference.atan2).
Local Abbreviation rrecalculateRoute_try :=
  (recalculateRoute_try Reference.sin Reference.cos Reference.atan2).
Local Abbreviation restimateTollCost :=
  (estimateTollCost Reference.sin Reference.cos Reference.atan2).
Local Abbreviation rpathDistance :=
  (pathDistance Reference.sin Reference.cos Reference.atan2).

(** One degree of longitude on the equator is 111.2 km, 133.4 minutes at
    50 km/h. *)
Example fallback_equator :
  ∃ route w',
    rcalculateOptimalRoute Samples.fallback Samples.request
      (Samples.world Samples.equator PLANNED [] []) = (inr route, w') ∧
    path route = [point 0 0; point 0 1] ∧
    (abs (totalDistance route - 111.195) <? 0.001) = true ∧
    (abs (estimatedDuration route - 133.434) <? 0.001) = true.
Proof. eexists _, _. split; [vm_compute; reflexivity |]. vm_compute. auto. Qed.

(** Stops at 3, 1, 2 and 1 degrees of longitude are visited in the order 1, 1,
    2, 3 from the origin; of two stops the nearer is visited first. *)
Example solveTSP_equator :
  rsolveTSP (point 0 0) [point 0 3; point 0 1; point 0 2; point 0 1] =
    Some [point 0 1; point 0 1; point 0 2; point 0 3] ∧
  rsolveTSP (point 0 0) [point 0 3; point 0 1] = Some [point 0 1; point 0 3] ∧
  rsolveTSP (point 0 0) [point 0 1; point 0 3] = Some [point 0 1; point 0 3].
Proof. vm_compute. repeat split. Qed.

(** On a path of four equally spaced points, a location at the second point
    is a progress of 33, and one at the last point a progress of 100. *)
Example progress_equally_spaced :
  ∀ k expected,
    (k, expected) ∈ [(0, 0); (1, 33); (2, 67); (3, 100)] →
    match fst (rgetTracking "route-1"
      (Samples.world [point 0 0; point 0 1; point 0 2; point 0 3] IN_PROGRESS
         [Samples.tracked 0 k] [])) with
    | inr response => progress response = expected
    | inl _ => False
    end.
Proof.
  intros k expected Hin. repeat (apply elem_of_cons in Hin as [[= -> ->] | Hin]);
    [vm_compute; reflexivity .. | by apply elem_of_nil in Hin].
Qed.

(** The handler on a stored path of one point: the progress and the remaining
    time are NaN. *)
Example getTracking_single_point :
  ∃ response w',
    rgetTracking "route-1"
      (Samples.world [point 0 0] IN_PROGRESS [Samples.tracked 0 0] []) = (inr response, w') ∧
    progress response = nan ∧ estimatedTimeRemaining response = nan.
Proof. eexists _, _. split; [vm_compute; reflexivity |]. by vm_compute. Qed.

(** The traffic signal draws from [Math.random]: the conditions of a path
    depend on the values to come. *)
Example getTrafficData_random :
  match fst (getRealTimeTrafficUpdate "route-1"
     (Samples.world [point 0 0; point 0 1; point 0 2] PLANNED [] [])) with
  | inr conditions => map condition conditions = [heavy; light]
  | inl _ => False
  end.
Proof. vm_compute. reflexivity. Qed.

(** The [Int] columns: of a recalculated duration of 253.52 minutes the store
    keeps 253, while the route returned has the number computed; of an actual
    duration of 42.5 minutes it keeps 42; and a duration of 3000000000 minutes
    makes the update fail and leaves the world as it was. *)
Example recalculateRoute_midway_minutes :
  ∃ newRoute w',
    rrecalculateRoute Samples.fallback "route-1" (point 0 1.1)
      (Samples.world [point 0 0; point 0 1; point 0 2; point 0 3] IN_PROGRESS [] []) =
      (inr newRoute, w') ∧
    isInt (estimatedDuration newRoute) = false ∧
    Js.floor (estimatedDuration newRoute) = 253 ∧
    routeEstimatedDuration <$> routes w' !! "route-1" = Some 253.
Proof.
  eexists _, _. split; [vm_compute; reflexivity |]. repeat split; vm_compute; reflexivity.
Qed.

Example updateRouteStatus_Int_column :
  (∃ r w',
     updateRouteStatus "route-1" COMPLETED (Some 42.5)
       (Samples.world Samples.equator IN_PROGRESS [] []) = (inr r, w') ∧
     actualDuration r = Some 42 ∧
     actualDuration <$> routes w' !! "route-1" = Some (Some 42)) ∧
  updateRouteStatus "route-1" COMPLETED (Some 3000000000)
    (Samples.world Samples.equator IN_PROGRESS [] []) =
    (inl (createError "Failed to update route status" 500),
     Samples.world Samples.equator IN_PROGRESS [] []).
Proof.
  split; [| vm_compute; reflexivity].
  eexists _, _. split; [vm_compute; reflexivity |]. split; vm_compute; reflexivity.
Qed.

(** The table of fuel prices: 0.12 per km for a van, 0.10 for a type that the
    table does not have, and NaN for a type whose name the table inherits. *)
Example calculateFuelCost_keys :
  calculateFuelCost 100 "VAN" = 12 ∧
  calculateFuelCost 100 "BICYCLE" = 10 ∧
  Js.isNaN (calculateFuelCost 100 "toString") = true.
Proof. repeat split; vm_compute; reflexivity. Qed.

(** *** Inputs on which the specification's sentences fail *)

(** Against C1: a route that is [COMPLETED] is updated to [PLANNED]; the call
    succeeds and the store holds the new status. *)
Lemma updateRouteStatus_out_of_COMPLETED :
  status <$> routes (Samples.world Samples.equator COMPLETED [] []) !! "route-1"
    = Some COMPLETED ∧
  ∃ r w',
    updateRouteStatus "route-1" PLANNED None (Samples.world Samples.equator COMPLETED [] [])
      = (inr r, w') ∧
    status r = PLANNED ∧
    status <$> routes w' !! "route-1" = Some PLANNED.
Proof.
  split; [vm_compute; reflexivity |].
  eexists _, _. split; [vm_compute; reflexivity |]. split; vm_compute; reflexivity.
Qed.

(** Against C9: an actual duration of 0 is provided and is not recorded. *)
Lemma updateRouteStatus_zero_duration :
  ∃ r w',
    updateRouteStatus "route-1" COMPLETED (Some 0)
      (Samples.world Samples.equator IN_PROGRESS [] []) = (inr r, w') ∧
    actualDuration r = None ∧
    actualDuration <$> routes w' !! "route-1" = Some None.
Proof.
  eexists _, _. split; [vm_compute; reflexivity |]. split; vm_compute; reflexivity.
Qed.

(** Against C8: with Google Maps configured and an answer of one leg with one
    step that starts at (5, 5), the path of the route from (0, 0) to (0, 1) is
    the single point (5, 5): neither the origin first nor the destination
    last. *)
Lemma calculateOptimalRoute_google_path :
  ∃ route w',
    rcalculateOptimalRoute Samples.google Samples.request
      (Samples.world Samples.equator PLANNED []
         [GoogleDirections [[ {| steps := [ {| start_lat := 5; start_lng := 5 |} ];
                                 distance_value := 111195; duration_value := 8006;
                                 duration_in_traffic := false |} ]]])
      = (inr route, w') ∧
    path route = [point 5 5] ∧
    head (path route) ≠ Some (origin Samples.request) ∧
    last (path route) ≠ Some (destination Samples.request).
Proof.
  eexists _, _. split; [vm_compute; reflexivity |]. split; [reflexivity |].
  split; cbn; intros [= H _]; apply (f_equal (λ x, x =? 0)) in H; vm_compute in H;
    discriminate.
Qed.

(** *** The theorems with hypotheses, at concrete inputs *)

(** Forty hundredths of a degree of longitude on the equator (44.5 km) cost no
    toll; one degree (111.2 km) costs 0.02 per km. *)
Lemma estimateTollCost_threshold_on_equator :
  restimateTollCost [point 0 0; point 0 0.4] = 0 ∧
  restimateTollCost Samples.equator = rpathDistance Samples.equator * 0.02.
Proof.
  split.
  - destruct (estimateTollCost_threshold Reference.sin Reference.cos Reference.atan2
                [point 0 0; point 0 0.4]) as (_ & Hbelow & _).
    apply Hbelow. vm_compute. reflexivity.
  - destruct (estimateTollCost_threshold Reference.sin Reference.cos Reference.atan2
                Samples.equator) as (_ & _ & Hbeyond & _).
    apply Hbeyond. vm_compute. reflexivity.
Defined.

Lemma calculateOptimalRoute_deterministic_at_equator :
  ∃ route,
    rcalculateOptimalRoute Samples.fallback Samples.request
      (Samples.world Samples.equator PLANNED [] []) =
      (inr route, Samples.world Samples.equator PLANNED [] []) ∧
    rcalculateOptimalRoute Samples.fallback Samples.request
      (Samples.world [] COMPLETED [Samples.tracked 0 1] [NetworkFailure]) =
      (inr route, Samples.world [] COMPLETED [Samples.tracked 0 1] [NetworkFailure]).
Proof.
  apply (calculateOptimalRoute_deterministic Reference.sin Reference.cos Reference.atan2
           Samples.fallback Samples.request); reflexivity.
Defined.

Lemma updateRouteStatus_actualDuration_at_42 :
  ∃ r',
    updateRouteStatus "route-1" COMPLETED (Some 42)
      (Samples.world Samples.equator IN_PROGRESS [] []) =
      (inr r', set_routes (insert "route-1" r')
                 (Samples.world Samples.equator IN_PROGRESS [] [])) ∧
    routes (set_routes (insert "route-1" r')
              (Samples.world Samples.equator IN_PROGRESS [] [])) !! "route-1" = Some r' ∧
    actualDuration r' =
      (if Js.truthy 42 then Some 42
       else actualDuration (Samples.route Samples.equator IN_PROGRESS)) ∧
    ((0 <? 42) = true → actualDuration r' = Some 42) ∧
    ((42 =? 0) = true →
     actualDuration r' = actualDuration (Samples.route Samples.equator IN_PROGRESS)).
Proof.
  apply (updateRouteStatus_actualDuration
           (Samples.world Samples.equator IN_PROGRESS [] []) "route-1"
           (Samples.route Samples.equator IN_PROGRESS) COMPLETED 42).
  - vm_compute. reflexivity.
  - vm_compute. reflexivity.
Defined.

(** A completed route is planned again, with a duration of 42 minutes. *)
Lemma updateRouteStatus_any_transition_from_COMPLETED :
  ∃ r',
    updateRouteStatus "route-1" PLANNED (Some 42)
      (Samples.world Samples.equator COMPLETED [] []) =
      (inr r', set_routes (insert "route-1" r')
                 (Samples.world Samples.equator COMPLETED [] [])) ∧
    status r' = PLANNED ∧
    routes (set_routes (insert "route-1" r')
              (Samples.world Samples.equator COMPLETED [] [])) !! "route-1" = Some r'.
Proof.
  destruct (updateRouteStatus_any_transition
              (Samples.world Samples.equator COMPLETED [] []) "route-1" PLANNED (Some 42))
    as (Hfound & _ & _).
  apply (Hfound (Samples.route Samples.equator COMPLETED)).
  - vm_compute. reflexivity.
  - intros d [= <-]. vm_compute. reflexivity.
Defined.

Lemma recalculateRoute_at_final_point_of_equator :
  rrecalculateRoute_try Samples.fallback "route-1" (point 0 1)
    (Samples.world Samples.equator IN_PROGRESS [] []) =
    (inl (createError "Route already completed" 400),
     Samples.world Samples.equator IN_PROGRESS [] []) ∧
  rrecalculateRoute Samples.fallback "route-1" (point 0 1)
    (Samples.world Samples.equator IN_PROGRESS [] []) =
    (inl (createError "Failed to recalculate route" 500),
     Samples.world Samples.equator IN_PROGRESS [] []).
Proof.
  apply (recalculateRoute_at_final_point Reference.sin Reference.cos Reference.atan2
           Samples.fallback (Samples.world Samples.equator IN_PROGRESS [] []) "route-1"
           (Samples.route Samples.equator IN_PROGRESS) Samples.van (point 0 1) (point 0 1)).
  - vm_compute. reflexivity.
  - vm_compute. reflexivity.
  - reflexivity.
  - intros [| j] q Hj Hq.
    + injection Hq as <-. vm_compute. reflexivity.
    + cbn in Hj. lia.
Defined.

Local Abbreviation rcalculateProgress :=
  (calculateProgress Reference.sin Reference.cos Reference.atan2).
Local Abbreviation rtrackingDistance :=
  (trackingDistance Reference.sin Reference.cos Reference.atan2).

Lemma calculateProgress_closest_on_equator :
  ∃ k closest,
    [point 0 0; point 0 1; point 0 2; point 0 3] !! k = Some closest ∧
    (∀ j q, [point 0 0; point 0 1; point 0 2; point 0 3] !! j = Some q →
            (rtrackingDistance (Samples.tracked 0 2.2) closest <=?
             rtrackingDistance (Samples.tracked 0 2.2) q) = true) ∧
    (∀ j q, (j < k)%nat → [point 0 0; point 0 1; point 0 2; point 0 3] !! j = Some q →
            (rtrackingDistance (Samples.tracked 0 2.2) closest <?
             rtrackingDistance (Samples.tracked 0 2.2) q) = true) ∧
    rcalculateProgress (Some (Samples.tracked 0 2.2))
      [point 0 0; point 0 1; point 0 2; point 0 3] =
      Js.round ((Js.of_nat k / Js.of_Z (Z.of_nat 4 - 1)) * 100).
Proof.
  apply (calculateProgress_closest Reference.sin Reference.cos Reference.atan2
           (Samples.tracked 0 2.2) [point 0 0; point 0 1; point 0 2; point 0 3]).
  - discriminate.
  - repeat constructor.
Defined.

Lemma getTracking_response_on_equator :
  ∃ response,
    rgetTracking "route-1"
      (Samples.world Samples.equator IN_PROGRESS [Samples.tracked 0 1] []) =
      (inr response, Samples.world Samples.equator IN_PROGRESS [Samples.tracked 0 1] []) ∧
    responseRoute response = Samples.route Samples.equator IN_PROGRESS ∧
    responseLocation response =
      prisma.latest
        (filter (λ d, trackingTransporterId d =
                        transporterId (Samples.route Samples.equator IN_PROGRESS) ∧
                      trackingOrderId d =
                        Some (orderId (Samples.route Samples.equator IN_PROGRESS)))
           (trackingData
              (Samples.world Samples.equator IN_PROGRESS [Samples.tracked 0 1] []))) ∧
    (responseLocation response = None → progress response = 0) ∧
    progress response =
      rcalculateProgress (responseLocation response)
        (optimizedPath (Samples.route Samples.equator IN_PROGRESS)) ∧
    estimatedTimeRemaining response =
      routeEstimatedDuration (Samples.route Samples.equator IN_PROGRESS) *
      (1 - progress response / 100).
Proof.
  apply (getTracking_response Reference.sin Reference.cos Reference.atan2
           (Samples.world Samples.equator IN_PROGRESS [Samples.tracked 0 1] []) "route-1"
           (Samples.route Samples.equator IN_PROGRESS) Samples.van).
  - vm_compute. reflexivity.
  - vm_compute. reflexivity.
Defined.

(** A recalculation from a location just past the second of four points: the
    last two points remain, the new route runs from the location through them,
    and the store holds its path. *)
Example recalculateRoute_midway :
  ∃ newRoute w',
    rrecalculateRoute Samples.fallback "route-1" (point 0 1.1)
      (Samples.world [point 0 0; point 0 1; point 0 2; point 0 3] IN_PROGRESS [] []) =
      (inr newRoute, w') ∧
    path newRoute = [point 0 1.1; point 0 2; point 0 3] ∧
    routeWaypoints newRoute = [point 0 2] ∧
    optimizedPath <$> routes w' !! "route-1" = Some (path newRoute) ∧
    status <$> routes w' !! "route-1" = Some IN_PROGRESS.
Proof.
  eexists _, _. split; [vm_compute; reflexivity |]. repeat split; vm_compute; reflexivity.
Qed.

(** * The rest of the services: properties *)

(** ** What a route computation leaves alone *)

Lemma same_store_refl w : same_store w w.
Proof. by repeat split. Qed.

Lemma take_last_snoc {A} (l : list A) (x : A) :
  last l = Some x → take (length l - 1) l ++ [x] = l.
Proof.
  intros H. destruct (last_Some l x) as [(l' & ->) _]; [done |].
  rewrite length_app. cbn. rewrite Nat.add_sub, take_app_length. reflexivity.
Qed.

Section RestFacts.

Variables Math_sin Math_cos : Js.number → Js.number.
Variable Math_atan2 : Js.number → Js.number → Js.number.
Variable config : Config.
Variable knownOrder : string → bool.

Local Abbreviation dist := (calculateDistance Math_sin Math_cos Math_atan2).
Local Abbreviation solveTSP := (solveTSP Math_sin Math_cos Math_atan2).
Local Abbreviation calculateOptimalRoute :=
  (calculateOptimalRoute Math_sin Math_cos Math_atan2 config).
Local Abbreviation fallbackRoute := (fallbackRoute Math_sin Math_cos Math_atan2).
Local Abbreviation getRemainingWaypoints :=
  (getRemainingWaypoints Math_sin Math_cos Math_atan2).
Local Abbreviation recalculateRoute :=
  (recalculateRoute Math_sin Math_cos Math_atan2 config).
Local Abbreviation createRoute :=
  (createRoute Math_sin Math_cos Math_atan2 config knownOrder).
Local Abbreviation optimizeMultipleDeliveries_try :=
  (optimizeMultipleDeliveries_try Math_sin Math_cos Math_atan2 config).
Local Abbreviation optimizeMultipleDeliveries :=
  (optimizeMultipleDeliveries Math_sin Math_cos Math_atan2 config).
Local Abbreviation getTracking := (getTracking Math_sin Math_cos Math_atan2).

(** A route computation reads and writes nothing but the network, and its
    one error is "Failed to calculate optimal route". *)
Lemma calculateOptimalRoute_same_store request w :
  same_store w (calculateOptimalRoute request w).2 ∧
  ∀ e, (calculateOptimalRoute request w).1 = inl e →
       e = createError "Failed to calculate optimal route" 500.
Proof.
  unfold calculateOptimalRoute, getExternalRoute.
  destruct (configured (googleMapsApiKey config));
    [| destruct (configured (mapboxToken config))].
  - unfold try_catch, bind, getGoogleMapsRoute, try_catch, bind, axios_get, throw, ret.
    destruct (network w) as [| [| [| legs others] | found] rest]; cbn;
      (split; [by repeat split | intros e [= <-]; reflexivity || idtac]); try done.
  - unfold try_catch, bind, getMapboxRoute, try_catch, bind, axios_get, throw, ret.
    destruct (network w) as [| [| legs | [| found others]] rest]; cbn;
      (split; [by repeat split | intros e [= <-]; reflexivity || idtac]); try done.
  - cbn. split; [by repeat split | done].
Qed.

(** ** [recalculateRoute] *)

(** The row after the write of [recalculateRoute], for a duration that the
    column keeps as it is. *)
Lemma written_recalculationData newRoute date (r : Route) :
  isInt (estimatedDuration newRoute) = true →
  prisma.written (recalculationData newRoute date) r =
  Some (recalculatedData newRoute date r).
Proof.
  intros Hint. unfold prisma.written, recalculationData. cbn.
  by rewrite (toInt_isInt _ Hint).
Qed.

Lemma recalculateRoute_try_cases id currentLocation w :
  match routes w !! id with
  | None =>
      recalculateRoute_try Math_sin Math_cos Math_atan2 config id currentLocation w =
      (inl (createError "Route not found" 404), w)
  | Some r =>
      match transporters w !! transporterId r with
      | None =>
          recalculateRoute_try Math_sin Math_cos Math_atan2 config id currentLocation w =
          (inl (createError "Failed to fetch route" 500), w)
      | Some t =>
          match getRemainingWaypoints (optimizedPath r) currentLocation with
          | inl e =>
              recalculateRoute_try Math_sin Math_cos Math_atan2 config id currentLocation w =
              (inl e, w)
          | inr remaining =>
              match last remaining with
              | None =>
                  recalculateRoute_try Math_sin Math_cos Math_atan2 config id
                    currentLocation w =
                  (inl (createError "Route already completed" 400), w)
              | Some final =>
                  let request :=
                    {| origin := currentLocation; destination := final;
                       waypoints := Some (take (length remaining - 1) remaining);
                       vehicleType := transporterVehicleType t;
                       trafficModel := None; departureTime := None |} in
                  match calculateOptimalRoute request w with
                  | (inl e, w') =>
                      recalculateRoute_try Math_sin Math_cos Math_atan2 config id
                        currentLocation w = (inl e, w')
                  | (inr newRoute, w') =>
                      match prisma.written (recalculationData newRoute (clock w)) r with
                      | Some row =>
                          recalculateRoute_try Math_sin Math_cos Math_atan2 config id
                            currentLocation w =
                          (inr newRoute, set_routes (insert id row) w')
                      | None =>
                          recalculateRoute_try Math_sin Math_cos Math_atan2 config id
                            currentLocation w =
                          (inl (runtimeError
                                  "Unable to fit value into an INT4 (32-bit signed integer)"),
                           w')
                      end
                  end
              end
          end
      end
  end.
Proof.
  unfold recalculateRoute_try, bind, getRouteById, try_catch, bind,
    prisma.route_findUnique, lift, throw, ret.
  destruct (routes w !! id) as [r |] eqn:Hr; [| reflexivity].
  destruct (transporters w !! transporterId r) as [t |] eqn:Ht; [| reflexivity].
  cbn. destruct (getRemainingWaypoints (optimizedPath r) currentLocation)
    as [e | remaining]; [reflexivity |].
  destruct (last remaining) as [final |]; [| reflexivity].
  cbv zeta.
  pose proof (calculateOptimalRoute_same_store
                {| origin := currentLocation; destination := final;
                   waypoints := Some (take (length remaining - 1) remaining);
                   vehicleType := transporterVehicleType t;
                   trafficModel := None; departureTime := None |} w) as [Hsame _].
  destruct (calculateOptimalRoute _ w) as [[e | newRoute] w']; [reflexivity |].
  destruct Hsame as (Hroutes & _ & _ & Hclock & _). cbn in Hroutes, Hclock.
  unfold now, prisma.route_update. rewrite Hroutes, Hr, Hclock.
  by destruct (prisma.written _ r).
Qed.

(** X4. A recalculation that fails has written nothing: the store, the clock
    and the random values to come are as they were (only answers of the
    network may have been used), and the error is "Failed to recalculate
    route" (500) whatever went wrong. *)
Theorem recalculateRoute_failure_keeps_store (id : string)
    (currentLocation : RouteWaypoint) (w w' : World) (e : JsError) :
  recalculateRoute id currentLocation w = (inl e, w') →
  e = createError "Failed to recalculate route" 500 ∧ same_store w w'.
Proof.
  unfold recalculateRoute, try_catch, throw.
  pose proof (recalculateRoute_try_cases id currentLocation w) as Hcases.
  destruct (routes w !! id) as [r |].
  2: { rewrite Hcases. intros [= <- <-]. split; [done | apply same_store_refl]. }
  destruct (transporters w !! transporterId r) as [t |].
  2: { rewrite Hcases. intros [= <- <-]. split; [done | apply same_store_refl]. }
  destruct (getRemainingWaypoints (optimizedPath r) currentLocation) as [e0 | remaining].
  { rewrite Hcases. intros [= <- <-]. split; [done | apply same_store_refl]. }
  destruct (last remaining) as [final |].
  2: { rewrite Hcases. intros [= <- <-]. split; [done | apply same_store_refl]. }
  cbv zeta in Hcases.
  pose proof (calculateOptimalRoute_same_store
                {| origin := currentLocation; destination := final;
                   waypoints := Some (take (length remaining - 1) remaining);
                   vehicleType := transporterVehicleType t;
                   trafficModel := None; departureTime := None |} w) as [Hsame _].
  destruct (calculateOptimalRoute _ w) as [[e1 | newRoute] w1].
  - rewrite Hcases. intros [= <- <-]. done.
  - destruct (prisma.written _ r); rewrite Hcases; [discriminate |].
    intros [= <- <-]. done.
Qed.

(** X5. With no external provider configured, a recalculation of a persisted
    route that has waypoints left, with an estimated duration that is a whole
    number of minutes (what the column keeps as given), succeeds: the new route runs
    from the current location through the remaining waypoints in their order,
    it is no longer than the stored path, and the stored row takes its path,
    distance, duration and costs while keeping its id, order, transporter,
    status, actual duration and creation time.  No other row changes. *)
Theorem recalculateRoute_fallback (w : World) (id : string) (r : Route) (t : Transporter)
    (currentLocation : RouteWaypoint) (remaining : list RouteWaypoint) :
  configured (googleMapsApiKey config) = false →
  configured (mapboxToken config) = false →
  routes w !! id = Some r →
  transporters w !! transporterId r = Some t →
  getRemainingWaypoints (optimizedPath r) currentLocation = inr remaining →
  remaining ≠ [] →
  (∀ final, last remaining = Some final →
            isInt (dist currentLocation final / 50 * 60) = true) →
  ∃ newRoute w',
    recalculateRoute id currentLocation w = (inr newRoute, w') ∧
    path newRoute = currentLocation :: remaining ∧
    isInt (estimatedDuration newRoute) = true ∧
    (length (path newRoute) ≤ length (optimizedPath r))%nat ∧
    routes w' !! id = Some (recalculatedData newRoute (clock w) r) ∧
    (∀ other, other ≠ id → routes w' !! other = routes w !! other) ∧
    routeId (recalculatedData newRoute (clock w) r) = routeId r ∧
    orderId (recalculatedData newRoute (clock w) r) = orderId r ∧
    transporterId (recalculatedData newRoute (clock w) r) = transporterId r ∧
    status (recalculatedData newRoute (clock w) r) = status r ∧
    actualDuration (recalculatedData newRoute (clock w) r) = actualDuration r ∧
    createdAt (recalculatedData newRoute (clock w) r) = createdAt r ∧
    optimizedPath (recalculatedData newRoute (clock w) r) = currentLocation :: remaining.
Proof.
  intros Hg Hm Hr Ht Hrem Hne Hint.
  pose proof (recalculateRoute_try_cases id currentLocation w) as Hcases.
  rewrite Hr, Ht, Hrem in Hcases.
  destruct (last remaining) as [final |] eqn:Hlast;
    [| by apply last_None in Hlast].
  cbv zeta in Hcases.
  rewrite (calculateOptimalRoute_fallback Math_sin Math_cos Math_atan2 config _ w Hg Hm)
    in Hcases.
  rewrite written_recalculationData in Hcases by (by apply Hint).
  eexists _, _. split.
  { unfold recalculateRoute, try_catch. rewrite Hcases. reflexivity. }
  assert (currentLocation :: take (length remaining - 1) remaining ++ [final] =
          currentLocation :: remaining) as Hpath
    by (by rewrite take_last_snoc).
  cbn. rewrite Hpath. repeat split; try done.
  - by apply Hint.
  - destruct (optimizedPath r) as [| first others] eqn:Hpath'; [discriminate |].
    unfold getRemainingWaypoints in Hrem.
    destruct (closest_from _ _ _ _ _ _ _) as [? k]. injection Hrem as <-.
    assert (0 < length (drop (k + 1) (first :: others)))%nat as Hpos
      by (destruct (drop (k + 1) (first :: others)); [done | cbn; lia]).
    cbn. rewrite length_app, length_take. rewrite length_drop in Hpos |- *.
    cbn in Hpos |- *. lia.
  - apply lookup_insert_eq.
  - intros other Hother. by apply lookup_insert_ne.
Qed.

(** ** [optimizeMultipleDeliveries] *)

(** X6. When the transporter is unknown or has no recorded location, the
    [try] block of [optimizeMultipleDeliveries] throws "Transporter location
    not available" (400), and the caller receives "Failed to optimize route"
    (500) in its place; with no delivery point the caller receives the same
    error.  The world is unchanged. *)
Theorem optimizeMultipleDeliveries_unavailable (w : World) (id : string)
    (deliveryPoints : list RouteWaypoint) :
  lastKnownLocation w id = None ∨ deliveryPoints = [] →
  optimizeMultipleDeliveries id deliveryPoints w =
    (inl (createError "Failed to optimize route" 500), w) ∧
  (lastKnownLocation w id = None →
   optimizeMultipleDeliveries_try id deliveryPoints w =
     (inl (createError "Transporter location not available" 400), w)).
Proof.
  intros H.
  assert (∃ e, optimizeMultipleDeliveries_try id deliveryPoints w = (inl e, w) ∧
               (lastKnownLocation w id = None →
                e = createError "Transporter location not available" 400))
    as (e & Htry & He).
  { unfold optimizeMultipleDeliveries_try, lastKnownLocation, bind,
      prisma_transporter_findUnique, throw in *.
    destruct (transporters w !! id) as [t |]; cbn in *; [| eauto].
    destruct (currentLocation t) as [loc |]; cbn in *; [| eauto].
    destruct H as [H | ->]; [discriminate |].
    cbn. eexists. split; [reflexivity | discriminate]. }
  split.
  - unfold optimizeMultipleDeliveries, try_catch. by rewrite Htry.
  - intros Hnone. by rewrite Htry, (He Hnone).
Qed.

(** X7. With no external provider configured, for a transporter with a
    recorded location and at least one delivery point, the optimized route
    starts at that location and then visits the delivery points in the
    nearest-neighbour order of [solveTSP], a permutation of the points given;
    all stops but the last are its waypoints, and its total distance is the
    distance from the location to the last stop alone.  The world is
    unchanged. *)
Theorem optimizeMultipleDeliveries_fallback (w : World) (id : string) (t : Transporter)
    (location : Js.number * Js.number) (deliveryPoints : list RouteWaypoint) :
  configured (googleMapsApiKey config) = false →
  configured (mapboxToken config) = false →
  transporters w !! id = Some t →
  currentLocation t = Some location →
  deliveryPoints ≠ [] →
  ∃ tour final route,
    solveTSP (point location.1 location.2) deliveryPoints = Some tour ∧
    tour ≡ₚ deliveryPoints ∧
    last tour = Some final ∧
    optimizeMultipleDeliveries id deliveryPoints w = (inr route, w) ∧
    path route = point location.1 location.2 :: tour ∧
    routeWaypoints route = take (length tour - 1) tour ∧
    totalDistance route = dist (point location.1 location.2) final ∧
    estimatedFuelCost route =
      calculateFuelCost (totalDistance route) (transporterVehicleType t).
Proof.
  intros Hg Hm Ht Hloc Hne.
  destruct (solveTSP_loop_spec Math_sin Math_cos Math_atan2 (length deliveryPoints)
              deliveryPoints [] (point location.1 location.2) (le_n _))
    as (tour & Hloop & Hperm & _).
  cbn in Hloop. fold (solveTSP (point location.1 location.2) deliveryPoints) in Hloop.
  destruct (last tour) as [final |] eqn:Hlast.
  2: { apply last_None in Hlast. subst tour.
       by apply Permutation_nil_r in Hperm. }
  exists tour, final. eexists. split; [exact Hloop |]. split; [by symmetry |].
  split; [exact Hlast |]. split.
  { unfold optimizeMultipleDeliveries, try_catch, optimizeMultipleDeliveries_try, bind,
      prisma_transporter_findUnique.
    rewrite Ht. cbn. rewrite Hloc. cbn. rewrite Hloop, Hlast.
    rewrite (calculateOptimalRoute_fallback Math_sin Math_cos Math_atan2 config _ w Hg Hm).
    reflexivity. }
  cbn. rewrite (take_last_snoc _ _ Hlast). repeat split.
Qed.

(** ** [createRoute] *)

Lemma orderHasRoute_true (rows : gmap string Route) rid r :
  rows !! rid = Some r → orderHasRoute (orderId r) rows = true.
Proof.
  intros H. apply bool_decide_eq_true. apply map_Exists_lookup. eauto.
Qed.

Lemma orderHasRoute_false (rows : gmap string Route) oid :
  (∀ rid r, rows !! rid = Some r → orderId r ≠ oid) → orderHasRoute oid rows = false.
Proof.
  intros H. apply bool_decide_eq_false. rewrite map_Exists_lookup.
  intros (rid & r & Hr & Heq). by apply (H rid r).
Qed.

(** The store keeps the keys of a row that it creates, and the whole row when
    its numbers fit the [Int] columns as they are. *)
Lemma prisma_created_keys (data row : Route) :
  prisma_created data = Some row →
  routeId row = routeId data ∧ orderId row = orderId data ∧
  transporterId row = transporterId data.
Proof.
  unfold prisma_created, prisma.written. cbn.
  destruct (toInt (routeEstimatedDuration data)); [| discriminate].
  destruct (actualDuration data) as [actual |]; cbn.
  - destruct (toInt actual); [| discriminate]. by intros [= <-].
  - by intros [= <-].
Qed.

Lemma prisma_created_isInt (data : Route) :
  isInt (routeEstimatedDuration data) = true →
  actualDuration data = None →
  prisma_created data = Some data.
Proof.
  destruct data. cbn. intros Hint ->. unfold prisma_created, prisma.written. cbn.
  by rewrite (toInt_isInt _ Hint).
Qed.

Lemma createRoute_cases newId oid tid request w :
  match calculateOptimalRoute request w with
  | (inl _, w') =>
      createRoute newId oid tid request w =
      (inl (createError "Failed to create route" 500), w')
  | (inr optimizedRoute, w') =>
      match prisma_created (createdData newId oid tid optimizedRoute (clock w)) with
      | None =>
          createRoute newId oid tid request w =
          (inl (createError "Failed to create route" 500), w')
      | Some row =>
          if bool_decide (is_Some (routes w !! newId)) || orderHasRoute oid (routes w)
             || negb (knownOrder oid)
             || negb (bool_decide (is_Some (transporters w !! tid)))
          then createRoute newId oid tid request w =
               (inl (createError "Failed to create route" 500), w')
          else createRoute newId oid tid request w =
               (inr row, set_routes (insert newId row) w')
      end
  end.
Proof.
  unfold createRoute, try_catch, bind, throw, ret.
  pose proof (calculateOptimalRoute_same_store request w) as [Hsame _].
  destruct (calculateOptimalRoute request w) as [[e | optimizedRoute] w']; [reflexivity |].
  destruct Hsame as (Hroutes & Htransporters & _ & Hclock & _).
  cbn in Hroutes, Htransporters, Hclock.
  unfold prisma_route_create. rewrite Hroutes, Htransporters, Hclock.
  destruct (prisma_created _) as [row |] eqn:Hrow; [| reflexivity].
  apply prisma_created_keys in Hrow as (_ & -> & ->). cbn.
  destruct (bool_decide (is_Some (routes w !! newId))); [reflexivity |].
  destruct (orderHasRoute oid (routes w)); [reflexivity |].
  destruct (knownOrder oid); [| reflexivity].
  destruct (bool_decide (is_Some (transporters w !! tid))); reflexivity.
Qed.

Lemma createRoute_duplicate (w : World) newId tid request rid r :
  routes w !! rid = Some r →
  ∃ w', createRoute newId (orderId r) tid request w =
        (inl (createError "Failed to create route" 500), w').
Proof.
  intros Hr.
  pose proof (createRoute_cases newId (orderId r) tid request w) as Hcases.
  destruct (calculateOptimalRoute request w) as [[e0 | optimizedRoute] w0]; [eauto |].
  destruct (prisma_created _); [| eauto].
  rewrite (orderHasRoute_true _ _ _ Hr), orb_true_r in Hcases. cbn in Hcases. eauto.
Qed.

(** X8. An order has at most one route: when a row of the store already
    belongs to the order, [createRoute] fails, with the error "Failed to create
    route" (500).  Whenever [createRoute] fails, that is its error and the
    store is as it was. *)
Theorem createRoute_duplicate_order (w : World) (newId oid tid : string)
    (request : RouteOptimizationRequest) :
  (∀ rid r, routes w !! rid = Some r → orderId r = oid →
            ∃ w', createRoute newId oid tid request w =
                  (inl (createError "Failed to create route" 500), w')) ∧
  (∀ e w', createRoute newId oid tid request w = (inl e, w') →
           e = createError "Failed to create route" 500 ∧ same_store w w').
Proof.
  pose proof (createRoute_cases newId oid tid request w) as Hcases.
  pose proof (calculateOptimalRoute_same_store request w) as [Hsame _].
  destruct (calculateOptimalRoute request w) as [[e0 | optimizedRoute] w0]; cbn in Hsame.
  - split; [eauto |]. rewrite Hcases. by intros e w' [= <- <-].
  - destruct (prisma_created _) as [row |].
    2: { split; [eauto |]. rewrite Hcases. by intros e w' [= <- <-]. }
    split.
    + intros rid r Hr <-. rewrite (orderHasRoute_true _ _ _ Hr), orb_true_r in Hcases.
      cbn in Hcases. eauto.
    + destruct (_ || _ || _ || _); rewrite Hcases; [| discriminate].
      by intros e w' [= <- <-].
Qed.

(** X9. With no external provider configured, for an order without a route,
    an existing transporter, an id that is free and a request whose estimated
    duration is a whole number of minutes, [createRoute] stores a row with
    status [PLANNED] and the path origin, waypoints, destination;
    [getRouteById] returns that row; no other row changes; and a second
    [createRoute] for the same order fails. *)
Theorem createRoute_fallback (w : World) (newId oid tid : string) (t : Transporter)
    (request : RouteOptimizationRequest) :
  configured (googleMapsApiKey config) = false →
  configured (mapboxToken config) = false →
  isInt (dist (origin request) (destination request) / 50 * 60) = true →
  routes w !! newId = None →
  (∀ rid r, routes w !! rid = Some r → orderId r ≠ oid) →
  knownOrder oid = true →
  transporters w !! tid = Some t →
  ∃ row w',
    createRoute newId oid tid request w = (inr row, w') ∧
    routeId row = newId ∧ orderId row = oid ∧ transporterId row = tid ∧
    status row = PLANNED ∧ actualDuration row = None ∧
    optimizedPath row =
      origin request :: default [] (waypoints request) ++ [destination request] ∧
    getRouteById newId w' = (inr (row, t), w') ∧
    (∀ other, other ≠ newId → routes w' !! other = routes w !! other) ∧
    (∀ newId' tid' request', ∃ w'',
       createRoute newId' oid tid' request' w' =
       (inl (createError "Failed to create route" 500), w'')).
Proof.
  intros Hg Hm Hint Hfree Hnone Hknown Ht.
  pose proof (createRoute_cases newId oid tid request w) as Hcases.
  rewrite (calculateOptimalRoute_fallback Math_sin Math_cos Math_atan2 config _ w Hg Hm)
    in Hcases.
  rewrite prisma_created_isInt in Hcases by (by apply Hint || reflexivity).
  rewrite Hfree, (orderHasRoute_false _ _ Hnone), Hknown, Ht in Hcases.
  rewrite bool_decide_eq_false_2 in Hcases by (by intros [? ?]).
  rewrite bool_decide_eq_true_2 in Hcases by eauto.
  cbn in Hcases.
  eexists _, _. split; [exact Hcases |].
  repeat split.
  - unfold getRouteById, try_catch, bind, prisma.route_findUnique. cbn.
    rewrite lookup_insert_eq. cbn. by rewrite Ht.
  - intros other Hother. cbn. by apply lookup_insert_ne.
  - intros newId' tid' request'.
    apply (createRoute_duplicate _ newId' tid' request' newId
             (createdData newId oid tid (fallbackRoute request) (clock w))).
    cbn. apply lookup_insert_eq.
Qed.

(** ** An unknown route id *)

(** X10. For an id that no route has, [getRouteById] fails with "Route not
    found" (404), and the tracking handler passes that error on; the traffic
    update, the recalculation and the status update each replace it by their
    own error with status 500.  None of them changes the world. *)
Theorem unknown_route_id (w : World) (id : string) (currentLocation : RouteWaypoint)
    (status' : RouteStatus) (duration : option Js.number) :
  routes w !! id = None →
  getRouteById id w = (inl (createError "Route not found" 404), w) ∧
  getTracking id w = (inl (createError "Route not found" 404), w) ∧
  getRealTimeTrafficUpdate id w = (inl (createError "Failed to get traffic update" 500), w) ∧
  recalculateRoute id currentLocation w =
    (inl (createError "Failed to recalculate route" 500), w) ∧
  updateRouteStatus id status' duration w =
    (inl (createError "Failed to update route status" 500), w).
Proof.
  intros H.
  assert (getRouteById id w = (inl (createError "Route not found" 404), w)) as Hget.
  { unfold getRouteById, try_catch, bind, prisma.route_findUnique. by rewrite H. }
  repeat split.
  - exact Hget.
  - unfold getTracking, bind. by rewrite Hget.
  - unfold getRealTimeTrafficUpdate, try_catch, bind. by rewrite Hget.
  - pose proof (recalculateRoute_try_cases id currentLocation w) as Hcases.
    rewrite H in Hcases. unfold recalculateRoute, try_catch. by rewrite Hcases.
  - by apply updateRouteStatus_missing.
Qed.

(** ** [updateLocation] and what it feeds *)

Lemma updateLocation_found (w : World) id t location :
  transporters w !! id = Some t →
  updateLocation id location w =
  (inr tt,
   {| routes := routes w;
      transporters :=
        <[id := {| transporterVehicleType := transporterVehicleType t;
                   currentLocation := Some location |}]> (transporters w);
      trackingData :=
        trackingData w ++
        [{| trackingTransporterId := id; trackingOrderId := None;
            trackingLatitude := location.1; trackingLongitude := location.2;
            timestamp := clock w |}];
      clock := clock w; random := random w; network := network w |}).
Proof.
  intros Ht. unfold updateLocation, try_catch, bind, prisma_transporter_update,
    prisma_trackingData_create, ret.
  rewrite Ht. cbn. rewrite lookup_insert_eq. reflexivity.
Qed.

(** X11. [updateLocation] on a transporter that exists records the location
    on the transporter and appends a tracking row that names no order.  The
    tracking handler reads the rows of the route's transporter and order: for
    every route it fails as it did before, or it answers with the route, the
    tracked location, the progress, the remaining time and the last update
    that it answered with before; what changes in its answer is the
    transporter included in the route, for the routes of that transporter,
    which shows the location recorded (and, among the columns that the model
    leaves out, the time of the update).  On a transporter that does not exist
    [updateLocation] fails with "Failed to update location" (500) and changes
    nothing. *)
Theorem updateLocation_not_tracked (w : World) (id : string)
    (location : Js.number * Js.number) :
  match transporters w !! id with
  | None =>
      updateLocation id location w = (inl (createError "Failed to update location" 500), w)
  | Some t =>
      ∃ w', updateLocation id location w = (inr tt, w') ∧
            lastKnownLocation w' id = Some location ∧
            routes w' = routes w ∧
            (∃ row, trackingData w' = trackingData w ++ [row] ∧
                    trackingTransporterId row = id ∧ trackingOrderId row = None ∧
                    trackingLatitude row = location.1 ∧
                    trackingLongitude row = location.2) ∧
            ∀ routeId,
              match (getTracking routeId w).1 with
              | inl e => (getTracking routeId w').1 = inl e
              | inr response =>
                  (getTracking routeId w').1 =
                  inr {| responseRoute := responseRoute response;
                         responseTransporter :=
                           if decide (transporterId (responseRoute response) = id)
                           then {| transporterVehicleType := transporterVehicleType t;
                                   currentLocation := Some location |}
                           else responseTransporter response;
                         responseLocation := responseLocation response;
                         progress := progress response;
                         estimatedTimeRemaining := estimatedTimeRemaining response;
                         lastUpdate := lastUpdate response |}
              end
  end.
Proof.
  destruct (transporters w !! id) as [t |] eqn:Ht.
  - eexists. split; [by apply updateLocation_found |].
    split; [| split; [reflexivity | split]].
    + unfold lastKnownLocation. cbn. by rewrite lookup_insert_eq.
    + eexists. split; [reflexivity |]. by repeat split.
    + intros rid. unfold getTracking, bind, getRouteById, try_catch, bind,
        prisma.route_findUnique, prisma.trackingData_findLatest, ret. cbn.
      destruct (routes w !! rid) as [r |]; [| reflexivity].
      destruct (decide (id = transporterId r)) as [-> | Hne].
      * rewrite lookup_insert_eq, Ht. cbn.
        rewrite filter_app, filter_cons_False, filter_nil, app_nil_r
          by (cbn; intros [_ [=]]).
        by rewrite decide_True.
      * rewrite lookup_insert_ne by done.
        destruct (transporters w !! transporterId r); [| reflexivity]. cbn.
        rewrite filter_app, filter_cons_False, filter_nil, app_nil_r
          by (cbn; intros [_ [=]]).
        by rewrite decide_False.
  - unfold updateLocation, try_catch, bind, prisma_transporter_update. by rewrite Ht.
Qed.

(** X12. After [updateLocation], with no external provider configured, a
    multi-stop optimization for that transporter starts at the location just
    recorded. *)
Theorem updateLocation_then_optimize (w w' : World) (id : string)
    (location : Js.number * Js.number) (deliveryPoints : list RouteWaypoint) :
  configured (googleMapsApiKey config) = false →
  configured (mapboxToken config) = false →
  updateLocation id location w = (inr tt, w') →
  deliveryPoints ≠ [] →
  ∃ route, optimizeMultipleDeliveries id deliveryPoints w' = (inr route, w') ∧
           head (path route) = Some (point location.1 location.2) ∧
           length (path route) = S (length deliveryPoints).
Proof.
  intros Hg Hm Hupdate Hne.
  destruct (transporters w !! id) as [t |] eqn:Ht.
  2: { unfold updateLocation, try_catch, bind, prisma_transporter_update in Hupdate.
       by rewrite Ht in Hupdate. }
  rewrite (updateLocation_found _ _ _ _ Ht) in Hupdate. injection Hupdate as <-.
  destruct (solveTSP_loop_spec Math_sin Math_cos Math_atan2 (length deliveryPoints)
              deliveryPoints [] (point location.1 location.2) (le_n _))
    as (tour & Hloop & Hperm & _).
  cbn in Hloop. fold (solveTSP (point location.1 location.2) deliveryPoints) in Hloop.
  destruct (last tour) as [final |] eqn:Hlast.
  2: { apply last_None in Hlast. subst tour. by apply Permutation_nil_r in Hperm. }
  eexists. split.
  { unfold optimizeMultipleDeliveries, try_catch, optimizeMultipleDeliveries_try, bind,
      prisma_transporter_findUnique.
    cbn. rewrite lookup_insert_eq. cbn. rewrite Hloop, Hlast.
    rewrite (calculateOptimalRoute_fallback Math_sin Math_cos Math_atan2 config _ _ Hg Hm).
    reflexivity. }
  cbn. rewrite (take_last_snoc _ _ Hlast). split; [reflexivity |].
  cbn. by rewrite Hperm.
Qed.

End RestFacts.

(** ** The traffic signal *)

(** X13. [getTrafficData] never fails and gives one condition per segment of
    the path, the segments being its consecutive pairs in order.  It uses
    values of [Math.random] only: it takes at most three per segment from the
    front of the stream, and the rest of the world is unchanged.  A condition
    is "heavy" only when one of the values taken is above 0.7, and "light"
    otherwise; a delay is 0, or the floor of 15 times one of the values
    taken. *)
Theorem getTrafficData_segments (path : list RouteWaypoint) (w : World) :
  ∃ conditions w' drawn,
    getTrafficData path w = (inr conditions, w') ∧
    map segment_start conditions = take (length path - 1) path ∧
    map segment_end conditions = drop 1 path ∧
    random w = drawn ++ random w' ∧
    (length drawn ≤ 3 * length conditions)%nat ∧
    Forall (λ c, (condition c = heavy ∧ ∃ r, r ∈ drawn ∧ (0.7 <? r) = true) ∨
                 condition c = light) conditions ∧
    Forall (λ c, delay c = 0 ∨ ∃ r, r ∈ drawn ∧ delay c = Js.floor (r * 15)) conditions ∧
    routes w' = routes w ∧ transporters w' = transporters w ∧
    trackingData w' = trackingData w ∧ clock w' = clock w ∧ network w' = network w.
Proof.
  revert w. induction path as [| start path IH]; intros w.
  { exists [], w, []. split; [reflexivity |]. by repeat split. }
  destruct path as [| next path].
  { exists [], w, []. split; [reflexivity |]. by repeat split. }
  assert (∀ w0, ∃ r w1 taken, Math_random w0 = (inr r, w1) ∧
            routes w1 = routes w0 ∧ transporters w1 = transporters w0 ∧
            trackingData w1 = trackingData w0 ∧ clock w1 = clock w0 ∧
            network w1 = network w0 ∧ random w0 = taken ++ random w1 ∧
            (taken = [r] ∨ (taken = [] ∧ r = 0))) as Hdraw.
  { intros w0. unfold Math_random. destruct (random w0) as [| x xs] eqn:Hr.
    - exists 0, w0, []. split; [reflexivity |]. rewrite ?Hr. repeat split; auto.
    - eexists x, _, [x]. split; [reflexivity |]. cbn. repeat split; auto. }
  destruct (Hdraw w) as (r1 & w1 & t1 & Ed1 & Er1 & Et1 & Ek1 & Ec1 & En1 & Es1 & Ht1).
  destruct (Hdraw w1) as (r2 & w2 & t2 & Ed2 & Er2 & Et2 & Ek2 & Ec2 & En2 & Es2 & Ht2).
  assert (∃ d w3 t3,
            (if 0.7 <? r2
             then (let* r3 := Math_random in ret (Js.floor (r3 * 15)))%js
             else ret 0) w2 = (inr d, w3) ∧
            (d = 0 ∨ ∃ r, r ∈ t3 ∧ d = Js.floor (r * 15)) ∧
            (length t3 ≤ 1)%nat ∧
            routes w3 = routes w2 ∧ transporters w3 = transporters w2 ∧
            trackingData w3 = trackingData w2 ∧ clock w3 = clock w2 ∧
            network w3 = network w2 ∧ random w2 = t3 ++ random w3)
    as (d & w3 & t3 & Ed3 & Hd & Hl3 & Er3 & Et3 & Ek3 & Ec3 & En3 & Es3).
  { destruct (0.7 <? r2).
    - destruct (Hdraw w2) as (r3 & w3 & t3 & Ed3 & ? & ? & ? & ? & ? & ? & Ht3).
      exists (Js.floor (r3 * 15)), w3, t3.
      unfold bind. rewrite Ed3. split; [reflexivity |].
      destruct Ht3 as [-> | [-> ->]].
      + split; [right; exists r3; split; [by left | reflexivity] |].
        split; [cbn; lia | by repeat split].
      + split; [by left |]. split; [cbn; lia | by repeat split].
    - exists 0, w2, []. split; [reflexivity |]. split; [by left |].
      split; [cbn; lia | by repeat split]. }
  destruct (IH w3)
    as (conds & w4 & t4 & Ed4 & Hs & He & Es4 & Hl4 & Hc & Hdel & Er4 & Et4 & Ek4 & Ec4 & En4).
  exists ({| segment_start := start; segment_end := next;
             condition := if 0.7 <? r1 then heavy else light;
             delay := d |} :: conds), w4, (t1 ++ t2 ++ t3 ++ t4).
  split.
  { change (getTrafficData (start :: next :: path))
      with (λ w, (let* r1 := Math_random in
                  let* r2 := Math_random in
                  let* delay := if 0.7 <? r2
                                then (let* r3 := Math_random in ret (Js.floor (r3 * 15)))
                                else ret 0 in
                  let* others := getTrafficData (next :: path) in
                  ret ({| segment_start := start; segment_end := next;
                          condition := if 0.7 <? r1 then heavy else light;
                          delay := delay |} :: others))%js w).
    cbv beta. unfold bind at 1. rewrite Ed1. unfold bind at 1. rewrite Ed2.
    unfold bind at 1. rewrite Ed3. unfold bind at 1. rewrite Ed4. reflexivity. }
  cbn [map segment_start segment_end length]. rewrite Hs, He.
  split; [cbn; by rewrite Nat.sub_0_r |]. split; [reflexivity |].
  split; [by rewrite Es1, Es2, Es3, Es4, <- !app_assoc |].
  split.
  { rewrite !length_app.
    assert (length t1 ≤ 1)%nat by (destruct Ht1 as [-> | [-> _]]; cbn; lia).
    assert (length t2 ≤ 1)%nat by (destruct Ht2 as [-> | [-> _]]; cbn; lia).
    lia. }
  split.
  { constructor.
    - cbn. destruct (0.7 <? r1) eqn:Hheavy; [| by right]. left. split; [reflexivity |].
      exists r1. split; [| exact Hheavy].
      destruct Ht1 as [-> | [_ ->]]; [by left | by vm_compute in Hheavy].
    - eapply Forall_impl; [exact Hc |]. cbn.
      intros c [[Hheavy (r & Hr & Hgt)] | Hlight]; [left | by right].
      split; [exact Hheavy |]. exists r. split; [rewrite !elem_of_app; auto | exact Hgt]. }
  split.
  { constructor.
    - cbn. destruct Hd as [-> | (r & Hr & ->)]; [by left | right].
      exists r. split; [rewrite !elem_of_app; auto | reflexivity].
    - eapply Forall_impl; [exact Hdel |]. cbn.
      intros c [Hzero | (r & Hr & Hfloor)]; [by left | right].
      exists r. split; [rewrite !elem_of_app; auto | exact Hfloor]. }
  repeat split; congruence.
Qed.

(** ** [OrderService] *)

Module OrdersFacts.

Import Orders.

Lemma getOrderById_cases (s : Store) id :
  getOrderById id s =
  match orders s !! id with
  | Some o => (inr o, s)
  | None => (inl (createError "Order not found" 404), s)
  end.
Proof.
  unfold getOrderById, attempt, andThen, prisma_order_findUnique.
  by destruct (orders s !! id).
Qed.

(** X14. [cancelOrder]: an unknown id fails with "Order not found" (404); an
    order that is [DELIVERED] or [IN_TRANSIT] fails with its own error (400);
    each of these errors reaches the caller as it is, and the store is
    unchanged.  An order in any other status, [CANCELLED] and [FAILED]
    included, becomes [CANCELLED]: the stored order keeps its transporter and
    its other fields, and takes the time of the call as its update time. *)
Theorem cancelOrder_cases (s : Store) (id : string) :
  match orders s !! id with
  | None => cancelOrder id s = (inl (createError "Order not found" 404), s)
  | Some o =>
      match orderStatus o with
      | DELIVERED =>
          cancelOrder id s = (inl (createError "Cannot cancel delivered order" 400), s)
      | IN_TRANSIT =>
          cancelOrder id s = (inl (createError "Cannot cancel order in transit" 400), s)
      | _ =>
          cancelOrder id s =
          (inr (set_status CANCELLED (orderTransporterId o) (storeClock s) o),
           set_orders
             (insert id (set_status CANCELLED (orderTransporterId o) (storeClock s) o)) s)
      end
  end.
Proof.
  unfold cancelOrder, attempt, andThen. rewrite getOrderById_cases.
  destruct (orders s !! id) as [o |] eqn:Ho; [| reflexivity].
  destruct (orderStatus o) eqn:Hstatus; try reflexivity;
    unfold today, andThen, prisma_order_update, pure; by rewrite Ho.
Qed.

(** X15. The status writes of [OrderService] check nothing about the order's
    status: on an existing order, [updateOrderStatus] stores any status (so it
    cancels an order that [cancelOrder] refuses to cancel), and
    [assignTransporter] stores the transporter and the status [ASSIGNED] when
    the transporter exists; when it does not, or when the order does not
    exist, the call fails with its error (500) and the store is unchanged. *)
Theorem status_writes_unguarded (s : Store) (id transporterId : string)
    (status : OrderStatus) :
  match orders s !! id with
  | None =>
      updateOrderStatus id status s =
        (inl (createError "Failed to update order status" 500), s) ∧
      assignTransporter id transporterId s =
        (inl (createError "Failed to assign transporter" 500), s)
  | Some o =>
      updateOrderStatus id status s =
        (inr (set_status status (orderTransporterId o) (storeClock s) o),
         set_orders
           (insert id (set_status status (orderTransporterId o) (storeClock s) o)) s) ∧
      (transporterId ∈ transporterIds s →
       assignTransporter id transporterId s =
         (inr (set_status ASSIGNED (Some transporterId) (storeClock s) o),
          set_orders
            (insert id (set_status ASSIGNED (Some transporterId) (storeClock s) o)) s)) ∧
      (transporterId ∉ transporterIds s →
       assignTransporter id transporterId s =
         (inl (createError "Failed to assign transporter" 500), s))
  end.
Proof.
  unfold updateOrderStatus, assignTransporter, attempt, andThen, today,
    prisma_order_update, pure, raise.
  destruct (orders s !! id) as [o |]; [| by split].
  split; [reflexivity |]. split; intros H.
  - by rewrite bool_decide_eq_true_2.
  - by rewrite bool_decide_eq_false_2.
Qed.

(** X16. [createOrder] with an id that is free stores a [PENDING] order
    without a transporter, which [getOrderById] then returns; once a
    transporter is assigned and the status set to [IN_TRANSIT], [cancelOrder]
    refuses the order and it stays in transit with its transporter. *)
Theorem createOrder_lifecycle (s : Store) (newId transporterId : string)
    (data : CreateOrderData) :
  orders s !! newId = None →
  transporterId ∈ transporterIds s →
  ∃ o s1,
    createOrder newId data s = (inr o, s1) ∧
    orderStatus o = PENDING ∧ orderTransporterId o = None ∧
    customerId o = dataCustomerId data ∧
    getOrderById newId s1 = (inr o, s1) ∧
    ∃ o2 s2 o3 s3,
      assignTransporter newId transporterId s1 = (inr o2, s2) ∧
      orderStatus o2 = ASSIGNED ∧
      updateOrderStatus newId IN_TRANSIT s2 = (inr o3, s3) ∧
      orderStatus o3 = IN_TRANSIT ∧ orderTransporterId o3 = Some transporterId ∧
      cancelOrder newId s3 = (inl (createError "Cannot cancel order in transit" 400), s3) ∧
      orders s3 !! newId = Some o3.
Proof.
  intros Hfree Hknown.
  eexists _, _. split.
  { unfold createOrder, attempt, andThen, prisma_order_create, pure.
    rewrite Hfree. rewrite bool_decide_eq_false_2 by (by intros [? ?]). reflexivity. }
  repeat split.
  { rewrite getOrderById_cases. cbn. by rewrite lookup_insert_eq. }
  eexists _, _, _, _. split.
  { unfold assignTransporter, attempt, andThen, today, prisma_order_update, pure. cbn.
    rewrite lookup_insert_eq. rewrite bool_decide_eq_true_2 by done. reflexivity. }
  split; [reflexivity |]. split.
  { unfold updateOrderStatus, attempt, andThen, today, prisma_order_update, pure. cbn.
    rewrite lookup_insert_eq. reflexivity. }
  split; [reflexivity |]. split; [reflexivity |].
  split.
  - unfold cancelOrder, attempt, andThen. rewrite getOrderById_cases. cbn.
    rewrite lookup_insert_eq. reflexivity.
  - cbn. by rewrite lookup_insert_eq.
Qed.

End OrdersFacts.

(** ** The rate limiter *)

Module RateLimiterFacts.

Import RateLimiter.

(** How many of the requests come from a client. *)
Definition requestsOf (client : string) (requests : list (option string * Z)) : nat :=
  length (filter (λ request, clientOf request.1 = client) requests).

(** The store after the requests [served], all of them at times within one
    window from [start]: the entry of a client counts its requests, no entry
    ends before the window does, and a client without an entry has made no
    request, unless its key is one that the store inherits. *)
Record tally (start : Z) (served : list (option string * Z))
    (store : gmap string Entry) : Prop := {
  tally_some : ∀ client entry, store !! client = Some entry →
               count entry = Z.of_nat (requestsOf client served) ∧
               (start + WINDOW_SIZE ≤ resetTime entry)%Z;
  tally_none : ∀ client, store !! client = None → inherited client = false →
               requestsOf client served = 0%nat
}.

Lemma requestsOf_snoc client served ip now :
  requestsOf client (served ++ [(ip, now)]) =
  (requestsOf client served + if decide (clientOf ip = client) then 1 else 0)%nat.
Proof.
  unfold requestsOf. rewrite filter_app, length_app. f_equal.
  rewrite filter_cons. cbn. by destruct (decide (clientOf ip = client)).
Qed.

Lemma cleanUp_live now (store : gmap string Entry) :
  (∀ client entry, store !! client = Some entry → (now ≤ resetTime entry)%Z) →
  cleanUp now store = store.
Proof.
  intros H. unfold cleanUp. apply map_filter_id. intros client entry Hentry.
  cbn. specialize (H _ _ Hentry). lia.
Qed.

Lemma rateLimiter_tally start served store ip now :
  tally start served store →
  (start ≤ now ≤ start + WINDOW_SIZE)%Z →
  tally start (served ++ [(ip, now)]) (rateLimiter ip now store).2 ∧
  (inherited (clientOf ip) = false →
   (rateLimiter ip now store).1 = Next ↔
   (requestsOf (clientOf ip) (served ++ [(ip, now)]) ≤ 100)%nat).
Proof.
  intros [Hsome Hnone] Hnow.
  unfold rateLimiter. rewrite cleanUp_live.
  2: { intros client entry Hentry. destruct (Hsome _ _ Hentry). lia. }
  cbv zeta. rewrite requestsOf_snoc, decide_True by done.
  destruct (store !! clientOf ip) as [entry |] eqn:Hentry.
  - destruct (Hsome _ _ Hentry) as [Hcount Hreset].
    destruct (Z.ltb_spec (resetTime entry) now); [lia |].
    cbn [count resetTime].
    assert (tally start (served ++ [(ip, now)])
              (<[clientOf ip := {| count := count entry + 1;
                                   resetTime := resetTime entry |}]> store)) as Htally.
    { split.
      - intros client entry' Hlookup. rewrite requestsOf_snoc.
        apply lookup_insert_Some in Hlookup as [[<- <-] | [Hne Hlookup]].
        + rewrite decide_True by done. cbn. split; lia.
        + rewrite decide_False by done. destruct (Hsome _ _ Hlookup). split; lia.
      - intros client Hlookup Hown. apply lookup_insert_None in Hlookup as [Hlookup Hne].
        rewrite requestsOf_snoc, decide_False by done.
        rewrite (Hnone _ Hlookup Hown). lia. }
    unfold MAX_REQUESTS.
    destruct (Z.ltb_spec 100 (count entry + 1)); cbn; (split; [exact Htally |]); intros _.
    + split; [discriminate | lia].
    + split; [lia | done].
  - destruct (inherited (clientOf ip)) eqn:Hinherited; cbn.
    + split; [| discriminate]. split.
      * intros client entry' Hlookup. rewrite requestsOf_snoc.
        rewrite decide_False by (intros Heq; subst client; congruence).
        destruct (Hsome _ _ Hlookup). split; lia.
      * intros client Hlookup Hown. rewrite requestsOf_snoc.
        rewrite decide_False by (intros Heq; subst client; congruence).
        rewrite (Hnone _ Hlookup Hown). lia.
    + split.
      * split.
        -- intros client entry' Hlookup. rewrite requestsOf_snoc.
           apply lookup_insert_Some in Hlookup as [[<- <-] | [Hne Hlookup]].
           ++ rewrite decide_True by done.
              rewrite (Hnone _ Hentry Hinherited). cbn. split; lia.
           ++ rewrite decide_False by done. destruct (Hsome _ _ Hlookup). split; lia.
        -- intros client Hlookup Hown.
           apply lookup_insert_None in Hlookup as [Hlookup Hne].
           rewrite requestsOf_snoc, decide_False by done.
           rewrite (Hnone _ Hlookup Hown). lia.
      * intros _. rewrite (Hnone _ Hentry Hinherited). split; [lia | done].
Qed.

Lemma serve_tally start requests : ∀ served store,
  tally start served store →
  (∀ ip now, (ip, now) ∈ requests → (start ≤ now ≤ start + WINDOW_SIZE)%Z) →
  ∀ i ip now, requests !! i = Some (ip, now) →
    ∃ outcome, (serve requests store).1 !! i = Some outcome ∧
               (inherited (clientOf ip) = false →
                outcome = Next ↔
                (requestsOf (clientOf ip) (served ++ take (S i) requests) ≤ 100)%nat).
Proof.
  induction requests as [| [ip0 now0] requests IH]; intros served store Htally Hwindow i ip now Hi.
  { done. }
  assert (start ≤ now0 ≤ start + WINDOW_SIZE)%Z as Hnow0 by (apply (Hwindow ip0); by left).
  destruct (rateLimiter_tally start served store ip0 now0 Htally Hnow0) as [Htally' Hnext].
  cbn [serve]. destruct (rateLimiter ip0 now0 store) as [outcome0 store'] eqn:Hstep.
  destruct (serve requests store') as [outcomes store''] eqn:Hserve.
  destruct i as [| i].
  - injection Hi as <- <-. exists outcome0. split; [reflexivity |]. exact Hnext.
  - cbn in Hi.
    assert (∀ ip' now', (ip', now') ∈ requests →
                        (start ≤ now' ≤ start + WINDOW_SIZE)%Z) as Hwindow'
      by (intros ip' now' Hin; apply (Hwindow ip'); by right).
    destruct (IH (served ++ [(ip0, now0)]) store' Htally' Hwindow' i ip now Hi)
      as (outcome & Hlookup & Hiff).
    rewrite Hserve in Hlookup. exists outcome. split; [exact Hlookup |].
    by rewrite <- app_assoc in Hiff.
Qed.

(** X17. From an empty store, over any sequence of requests whose times lie
    within one window (15 minutes) from a start time, a request passes
    ([next()]) exactly when it is among the first 100 requests of its client;
    every later one is answered 429.  (The client's key is not one that the
    store object inherits: see X18.) *)
Theorem serve_limit (start : Z) (requests : list (option string * Z)) (i : nat)
    (ip : option string) (now : Z) :
  (∀ ip' now', (ip', now') ∈ requests → (start ≤ now' ≤ start + WINDOW_SIZE)%Z) →
  requests !! i = Some (ip, now) →
  inherited (clientOf ip) = false →
  ∃ outcome, (serve requests ∅).1 !! i = Some outcome ∧
             (outcome = Next ↔
              (requestsOf (clientOf ip) (take (S i) requests) ≤ 100)%nat).
Proof.
  intros Hwindow Hi Hown.
  assert (tally start [] ∅) as Hempty
    by (split; [intros client entry Hlookup; by rewrite lookup_empty in Hlookup | done]).
  destruct (serve_tally start requests [] ∅ Hempty Hwindow i ip now Hi)
    as (outcome & Hlookup & Hiff).
  exists outcome. split; [exact Hlookup | exact (Hiff Hown)].
Qed.

(** X18. One call of the limiter at time [now]: afterwards no entry of the
    store has expired, and the entries of the other clients are those that
    had not expired, unchanged.  A client without an entry, or whose entry has
    expired, passes and starts a window of 15 minutes with count 1; but a
    client whose key names a property that the store object inherits from
    [Object.prototype] passes and gets no entry, so it is never limited.  A
    client with a live entry has its count raised by one, passes when the
    count was below 100, and otherwise is answered 429 with the seconds left
    of its window, rounded up (between 0 and 900 for a window started at or
    before [now]). *)
Theorem rateLimiter_step (ip : option string) (now : Z) (store : gmap string Entry) :
  ∃ outcome store',
    rateLimiter ip now store = (outcome, store') ∧
    (∀ client entry, store' !! client = Some entry → (now ≤ resetTime entry)%Z) ∧
    (∀ client, client ≠ clientOf ip →
       store' !! client =
       match store !! client with
       | Some entry => if (resetTime entry <? now)%Z then None else Some entry
       | None => None
       end) ∧
    match store !! clientOf ip with
    | Some entry =>
        if (resetTime entry <? now)%Z then
          outcome = Next ∧
          store' !! clientOf ip =
            if inherited (clientOf ip) then None
            else Some {| count := 1; resetTime := now + WINDOW_SIZE |}
        else
          store' !! clientOf ip =
            Some {| count := count entry + 1; resetTime := resetTime entry |} ∧
          (if (count entry <? 100)%Z then outcome = Next
           else outcome = TooManyRequests (ceilSeconds (resetTime entry - now)) ∧
                (resetTime entry ≤ now + WINDOW_SIZE →
                 0 ≤ ceilSeconds (resetTime entry - now) ≤ 900)%Z)
    | None =>
        outcome = Next ∧
        store' !! clientOf ip =
          if inherited (clientOf ip) then None
          else Some {| count := 1; resetTime := now + WINDOW_SIZE |}
    end.
Proof.
  assert (∀ client, cleanUp now store !! client =
            match store !! client with
            | Some entry => if (resetTime entry <? now)%Z then None else Some entry
            | None => None
            end) as Hclean.
  { intros client. unfold cleanUp. destruct (store !! client) as [entry |] eqn:Hentry.
    - destruct (Z.ltb_spec (resetTime entry) now).
      + apply map_lookup_filter_None. right. intros entry' Hentry'. cbn.
        rewrite Hentry in Hentry'. injection Hentry' as <-. lia.
      + apply map_lookup_filter_Some. split; [done |]. cbn. lia.
    - apply map_lookup_filter_None. by left. }
  assert (∀ client entry, cleanUp now store !! client = Some entry →
                          (now ≤ resetTime entry)%Z) as Hlive.
  { intros client entry. rewrite Hclean. destruct (store !! client) as [entry' |]; [| done].
    destruct (Z.ltb_spec (resetTime entry') now); [done |]. intros [= <-]. lia. }
  unfold rateLimiter. cbv zeta. pose proof (Hclean (clientOf ip)) as Hclient.
  destruct (store !! clientOf ip) as [entry |] eqn:Hentry.
  - destruct (Z.ltb_spec (resetTime entry) now) as [Hexpired | Hnot].
    + rewrite Hclient. destruct (inherited (clientOf ip)).
      * eexists _, _. split; [reflexivity |]. repeat split.
        -- exact Hlive.
        -- intros client _. apply Hclean.
        -- exact Hclient.
      * eexists _, _. split; [reflexivity |]. repeat split.
        -- intros client entry' Hlookup.
           apply lookup_insert_Some in Hlookup as [[_ <-] | [_ Hlookup]];
             [cbn; unfold WINDOW_SIZE; lia | eauto].
        -- intros client Hne. rewrite lookup_insert_ne by done. apply Hclean.
        -- apply lookup_insert_eq.
    + rewrite Hclient. destruct (Z.ltb_spec (resetTime entry) now); [lia |].
      cbn [count resetTime]. unfold MAX_REQUESTS.
      assert (∀ client entry',
                <[clientOf ip := {| count := count entry + 1;
                                    resetTime := resetTime entry |}]>
                  (cleanUp now store) !! client = Some entry' →
                (now ≤ resetTime entry')%Z) as Hlive'.
      { intros client entry' Hlookup.
        apply lookup_insert_Some in Hlookup as [[_ <-] | [_ Hlookup]]; [cbn; lia | eauto]. }
      destruct (Z.ltb_spec 100 (count entry + 1)); eexists _, _;
        (split; [reflexivity |]); (split; [exact Hlive' |]);
        (split; [intros client Hne; rewrite lookup_insert_ne by done; apply Hclean |]);
        (split; [apply lookup_insert_eq |]).
      * destruct (Z.ltb_spec (count entry) 100); [lia |]. split; [reflexivity |].
        intros Hwindow. unfold ceilSeconds, WINDOW_SIZE in *. split.
        -- apply Z.div_pos; lia.
        -- apply Z.lt_succ_r. apply Z.div_lt_upper_bound; lia.
      * destruct (Z.ltb_spec (count entry) 100); [reflexivity | lia].
  - rewrite Hclient. destruct (inherited (clientOf ip)).
    + eexists _, _. split; [reflexivity |]. repeat split.
      * exact Hlive.
      * intros client _. apply Hclean.
      * exact Hclient.
    + eexists _, _. split; [reflexivity |]. repeat split.
      * intros client entry' Hlookup.
        apply lookup_insert_Some in Hlookup as [[_ <-] | [_ Hlookup]];
          [cbn; unfold WINDOW_SIZE; lia | eauto].
      * intros client Hne. rewrite lookup_insert_ne by done. apply Hclean.
      * apply lookup_insert_eq.
Qed.

End RateLimiterFacts.

(** ** The tracked location of a route *)

Lemma latest_spec (rows : list TrackingData) :
  match prisma.latest rows with
  | Some row => row ∈ rows ∧ ∀ row', row' ∈ rows → (timestamp row' ≤ timestamp row)%Z
  | None => rows = []
  end.
Proof.
  induction rows as [| r rows IH]; [done |]. cbn.
  destruct (prisma.latest rows) as [r' |].
  - destruct IH as [Hin Hmax]. destruct (Z.ltb_spec (timestamp r) (timestamp r')).
    + split; [by right |]. intros row' [-> | Hin']%elem_of_cons; [lia | by apply Hmax].
    + split; [by left |]. intros row' [-> | Hin']%elem_of_cons; [lia |].
      specialize (Hmax _ Hin'). lia.
  - subst rows. split; [by left |]. intros row' [-> | Hin']%elem_of_cons; [lia |].
    by apply elem_of_nil in Hin'.
Qed.

Section TrackedFacts.

Variables Math_sin Math_cos : Js.number → Js.number.
Variable Math_atan2 : Js.number → Js.number → Js.number.

Local Abbreviation getTracking := (getTracking Math_sin Math_cos Math_atan2).

(** X19. For a persisted route, the location that the tracking handler
    measures progress from is a tracking row of the route's transporter and of
    its order, and no such row is later; when there is no such row, rows of
    the transporter for other orders or for no order notwithstanding, the
    handler answers with no location. *)
Theorem getTracking_latest_row (w : World) (id : string) (r : Route) (t : Transporter) :
  routes w !! id = Some r →
  transporters w !! transporterId r = Some t →
  ∃ response,
    getTracking id w = (inr response, w) ∧
    match responseLocation response with
    | Some row =>
        row ∈ trackingData w ∧
        trackingTransporterId row = transporterId r ∧
        trackingOrderId row = Some (orderId r) ∧
        ∀ row', row' ∈ trackingData w →
                trackingTransporterId row' = transporterId r →
                trackingOrderId row' = Some (orderId r) →
                (timestamp row' ≤ timestamp row)%Z
    | None =>
        ∀ row', row' ∈ trackingData w →
                ¬ (trackingTransporterId row' = transporterId r ∧
                   trackingOrderId row' = Some (orderId r))
    end.
Proof.
  intros Hr Ht. eexists. split.
  { unfold getTracking, bind, getRouteById, try_catch, bind,
      prisma.route_findUnique, prisma.trackingData_findLatest, ret.
    rewrite Hr, Ht. reflexivity. }
  cbn.
  pose proof (latest_spec
                (filter (λ d, trackingTransporterId d = transporterId r ∧
                              trackingOrderId d = Some (orderId r)) (trackingData w)))
    as Hlatest.
  destruct (prisma.latest _) as [row |]; cbn.
  - destruct Hlatest as [Hin Hmax]. apply list_elem_of_filter in Hin as [[? ?] Hin].
    repeat split; try done.
    intros row' Hin' ? ?. apply Hmax. by apply list_elem_of_filter.
  - intros row' Hin' Hmatch.
    assert (row' ∈ filter (λ d, trackingTransporterId d = transporterId r ∧
                                trackingOrderId d = Some (orderId r)) (trackingData w))
      as Hfiltered by (by apply list_elem_of_filter).
    rewrite Hlatest in Hfiltered. by apply elem_of_nil in Hfiltered.
Qed.

End TrackedFacts.

Lemma getTracking_latest_row_sample :
  ∃ response,
    rgetTracking "route-1" (MoreSamples.world Samples.equator) =
      (inr response, MoreSamples.world Samples.equator) ∧
    responseLocation response = Some (Samples.tracked 0 1).
Proof.
  destruct (getTracking_latest_row Reference.sin Reference.cos Reference.atan2
              (MoreSamples.world Samples.equator) "route-1"
              (Samples.route Samples.equator IN_PROGRESS) MoreSamples.located
              eq_refl eq_refl) as (response & Hrun & Hrow).
  exists response. split; [exact Hrun |].
  destruct (responseLocation response) as [row |].
  - destruct Hrow as (Hin & _). apply list_elem_of_singleton in Hin. by subst.
  - exfalso. apply (Hrow (Samples.tracked 0 1)); [by left | by split].
Defined.

(** ** The rest of the services on concrete inputs *)

Local Abbreviation roptimizeMultipleDeliveries :=
  (optimizeMultipleDeliveries Reference.sin Reference.cos Reference.atan2).
Local Abbreviation roptimizeMultipleDeliveries_try :=
  (optimizeMultipleDeliveries_try Reference.sin Reference.cos Reference.atan2).
Local Abbreviation rcreateRoute :=
  (createRoute Reference.sin Reference.cos Reference.atan2).
Local Abbreviation rgetRemainingWaypoints :=
  (getRemainingWaypoints Reference.sin Reference.cos Reference.atan2).

(** The 101st request of an address within its window is answered 429, with
    the 900 seconds that are left of the window. *)
Example rateLimiter_101 :
  last (RateLimiter.serve (replicate 101 (Some "10.0.0.1", 5%Z)) ∅).1 =
    Some (RateLimiter.TooManyRequests 900) ∧
  (RateLimiter.serve (replicate 101 (Some "10.0.0.1", 5%Z)) ∅).1 !! 99%nat =
    Some RateLimiter.Next.
Proof. vm_compute. split; reflexivity. Qed.

Lemma recalculateRoute_failure_keeps_store_unknown :
  createError "Failed to recalculate route" 500 =
    createError "Failed to recalculate route" 500 ∧
  same_store (Samples.world Samples.equator PLANNED [] [])
    (Samples.world Samples.equator PLANNED [] []).
Proof.
  apply (recalculateRoute_failure_keeps_store Reference.sin Reference.cos Reference.atan2
           Samples.google "route-9" (point 0 0)).
  vm_compute. reflexivity.
Defined.

(** A route whose last stop comes twice, recalculated from that stop: one
    stop remains, at no distance, and the duration is 0 minutes. *)
Lemma recalculateRoute_fallback_last_stop :
  ∃ newRoute w',
    rrecalculateRoute Samples.fallback "route-1" (point 0 1)
      (MoreSamples.world [point 0 0; point 0 1; point 0 1]) =
      (inr newRoute, w') ∧
    path newRoute = [point 0 1; point 0 1] ∧
    isInt (estimatedDuration newRoute) = true.
Proof.
  destruct (recalculateRoute_fallback Reference.sin Reference.cos Reference.atan2
              Samples.fallback
              (MoreSamples.world [point 0 0; point 0 1; point 0 1]) "route-1"
              (Samples.route [point 0 0; point 0 1; point 0 1] IN_PROGRESS)
              MoreSamples.located (point 0 1) [point 0 1])
    as (newRoute & w' & Hrun & Hpath & Hint & _).
  - reflexivity.
  - reflexivity.
  - vm_compute. reflexivity.
  - vm_compute. reflexivity.
  - vm_compute. reflexivity.
  - discriminate.
  - intros final [= <-]. vm_compute. reflexivity.
  - exists newRoute, w'. split; [exact Hrun |]. split; [exact Hpath | exact Hint].
Defined.

Lemma optimizeMultipleDeliveries_unavailable_van :
  roptimizeMultipleDeliveries Samples.fallback "transporter-1" [point 0 1; point 0 2]
    (Samples.world Samples.equator PLANNED [] []) =
    (inl (createError "Failed to optimize route" 500),
     Samples.world Samples.equator PLANNED [] []) ∧
  (lastKnownLocation (Samples.world Samples.equator PLANNED [] []) "transporter-1" = None →
   roptimizeMultipleDeliveries_try Samples.fallback "transporter-1" [point 0 1; point 0 2]
     (Samples.world Samples.equator PLANNED [] []) =
     (inl (createError "Transporter location not available" 400),
      Samples.world Samples.equator PLANNED [] [])).
Proof.
  apply (optimizeMultipleDeliveries_unavailable Reference.sin Reference.cos Reference.atan2
           Samples.fallback (Samples.world Samples.equator PLANNED [] []) "transporter-1"
           [point 0 1; point 0 2]).
  left. vm_compute. reflexivity.
Defined.

Lemma optimizeMultipleDeliveries_fallback_equator :
  ∃ route,
    roptimizeMultipleDeliveries Samples.fallback "transporter-1"
      [point 0 3; point 0 1; point 0 2] (MoreSamples.world Samples.equator) =
      (inr route, MoreSamples.world Samples.equator) ∧
    head (path route) = Some (point 0 0) ∧
    tail (path route) ≡ₚ [point 0 3; point 0 1; point 0 2].
Proof.
  destruct (optimizeMultipleDeliveries_fallback Reference.sin Reference.cos Reference.atan2
              Samples.fallback (MoreSamples.world Samples.equator) "transporter-1"
              MoreSamples.located (0, 0) [point 0 3; point 0 1; point 0 2])
    as (tour & final & route & _ & Hperm & _ & Hrun & Hpath & _).
  - reflexivity.
  - reflexivity.
  - vm_compute. reflexivity.
  - reflexivity.
  - discriminate.
  - exists route. split; [exact Hrun |]. rewrite Hpath.
    split; [reflexivity | exact Hperm].
Defined.

Lemma createRoute_fallback_second_order :
  ∃ row w',
    rcreateRoute Samples.fallback MoreSamples.everyOrder "route-2" "order-2" "transporter-1"
      MoreSamples.onTheSpot (MoreSamples.world Samples.equator) = (inr row, w') ∧
    status row = PLANNED ∧
    getRouteById "route-2" w' = (inr (row, MoreSamples.located), w').
Proof.
  destruct (createRoute_fallback Reference.sin Reference.cos Reference.atan2
              Samples.fallback MoreSamples.everyOrder (MoreSamples.world Samples.equator)
              "route-2" "order-2" "transporter-1" MoreSamples.located MoreSamples.onTheSpot)
    as (row & w' & Hrun & _ & _ & _ & Hstatus & _ & _ & Hget & _).
  - reflexivity.
  - reflexivity.
  - vm_compute. reflexivity.
  - vm_compute. reflexivity.
  - intros rid r Hr. cbv beta iota delta [MoreSamples.world routes] in Hr.
    apply lookup_singleton_Some in Hr as [_ <-]. discriminate.
  - reflexivity.
  - vm_compute. reflexivity.
  - exists row, w'. split; [exact Hrun |]. split; [exact Hstatus | exact Hget].
Defined.

(** One degree along the equator is 111.19 km and 133.43 minutes: the row that
    is created, and returned, has 133 minutes. *)
Example createRoute_equator_minutes :
  ∃ row w',
    rcreateRoute Samples.fallback MoreSamples.everyOrder "route-2" "order-2" "transporter-1"
      Samples.request (MoreSamples.world Samples.equator) = (inr row, w') ∧
    routeEstimatedDuration row = 133 ∧
    routes w' !! "route-2" = Some row.
Proof.
  eexists _, _. split; [vm_compute; reflexivity |]. split; vm_compute; reflexivity.
Qed.

Lemma unknown_route_id_sample :
  getRouteById "route-9" (MoreSamples.world Samples.equator) =
    (inl (createError "Route not found" 404), MoreSamples.world Samples.equator) ∧
  rgetTracking "route-9" (MoreSamples.world Samples.equator) =
    (inl (createError "Route not found" 404), MoreSamples.world Samples.equator) ∧
  getRealTimeTrafficUpdate "route-9" (MoreSamples.world Samples.equator) =
    (inl (createError "Failed to get traffic update" 500),
     MoreSamples.world Samples.equator) ∧
  rrecalculateRoute Samples.fallback "route-9" (point 0 0) (MoreSamples.world Samples.equator) =
    (inl (createError "Failed to recalculate route" 500),
     MoreSamples.world Samples.equator) ∧
  updateRouteStatus "route-9" COMPLETED None (MoreSamples.world Samples.equator) =
    (inl (createError "Failed to update route status" 500),
     MoreSamples.world Samples.equator).
Proof.
  apply (unknown_route_id Reference.sin Reference.cos Reference.atan2 Samples.fallback
           (MoreSamples.world Samples.equator) "route-9" (point 0 0) COMPLETED None).
  reflexivity.
Defined.

Lemma updateLocation_then_optimize_sample :
  ∃ w' route,
    updateLocation "transporter-1" (0, 0.5) (MoreSamples.world Samples.equator) =
      (inr tt, w') ∧
    roptimizeMultipleDeliveries Samples.fallback "transporter-1" [point 0 2; point 0 1] w' =
      (inr route, w') ∧
    head (path route) = Some (point 0 0.5) ∧
    length (path route) = 3%nat.
Proof.
  eexists. 
  destruct (updateLocation_then_optimize Reference.sin Reference.cos Reference.atan2
              Samples.fallback (MoreSamples.world Samples.equator) _ "transporter-1"
              (0, 0.5) [point 0 2; point 0 1] eq_refl eq_refl
              (updateLocation_found (MoreSamples.world Samples.equator) "transporter-1"
                 MoreSamples.located (0, 0.5) ltac:(vm_compute; reflexivity)))
    as (route & Hrun & Hhead & Hlen); [discriminate |].
  exists route. split; [apply updateLocation_found; vm_compute; reflexivity |].
  split; [exact Hrun |]. split; [exact Hhead | exact Hlen].
Defined.

Lemma createOrder_lifecycle_sample :
  ∃ o s1,
    Orders.createOrder "order-1" MoreSamples.orderData MoreSamples.orderStore = (inr o, s1) ∧
    Orders.orderStatus o = Orders.PENDING ∧
    Orders.getOrderById "order-1" s1 = (inr o, s1).
Proof.
  destruct (OrdersFacts.createOrder_lifecycle MoreSamples.orderStore "order-1"
              "transporter-1" MoreSamples.orderData)
    as (o & s1 & Hrun & Hstatus & _ & _ & Hget & _).
  - reflexivity.
  - vm_compute. reflexivity.
  - exists o, s1. split; [exact Hrun |]. split; [exact Hstatus | exact Hget].
Defined.

Lemma serve_limit_101 :
  ∃ outcome,
    (RateLimiter.serve (replicate 101 (Some "10.0.0.1", 5%Z)) ∅).1 !! 100%nat =
      Some outcome ∧
    (outcome = RateLimiter.Next ↔
     (RateLimiterFacts.requestsOf (RateLimiter.clientOf (Some "10.0.0.1"))
        (take 101 (replicate 101 (Some "10.0.0.1", 5%Z))) ≤ 100)%nat).
Proof.
  apply (RateLimiterFacts.serve_limit 0 (replicate 101 (Some "10.0.0.1", 5%Z)) 100
           (Some "10.0.0.1") 5).
  - intros ip' now' Hin. apply elem_of_replicate in Hin as [[= -> ->] _].
    unfold RateLimiter.WINDOW_SIZE. lia.
  - reflexivity.
  - vm_compute. reflexivity.
Defined.
